(** * Verification of the authentication engine (AuthContext.tsx) and of the
      form validators (Signup.tsx, Login.tsx).

    The TypeScript sources are embedded shallowly:
    - JavaScript strings are [string]s whose characters are the code units
      0..255 (the Latin-1 part of UTF-16);
    - the regular expression literal of the sources is a value of a small
      regex datatype, run by a derivative matcher;
    - the provider's React state, AsyncStorage and the console form an
      explicit world that every operation threads through an error monad
      (a rejected promise / thrown exception is the [Throw] outcome). *)

From Stdlib Require Import ZArith NArith Ascii String List Bool Lia DecimalString.
From Stdlib Require Import DecimalZ DecimalPos.
From stdpp Require Import base option list strings gmap.

Local Open Scope string_scope.

(** ** JavaScript string primitives *)
Module JS.

(** [\s] of a regular expression and the characters removed by
    [String.prototype.trim], restricted to code units below 256:
    TAB, LF, VT, FF, CR, SPACE and NO-BREAK SPACE. *)
Definition isWhiteSpace (c : ascii) : bool :=
  let n := N_of_ascii c in
  ((9 <=? n) && (n <=? 13) || (n =? 32) || (n =? 160))%N.

Fixpoint trimStart (s : string) : string :=
  match s with
  | EmptyString => EmptyString
  | String c s' => if isWhiteSpace c then trimStart s' else s
  end.

Fixpoint trimEnd (s : string) : string :=
  match s with
  | EmptyString => EmptyString
  | String c s' =>
      match trimEnd s' with
      | EmptyString => if isWhiteSpace c then EmptyString else String c EmptyString
      | t => String c t
      end
  end.

(** [s.trim()] *)
Definition trim (s : string) : string := trimEnd (trimStart s).

(** [!s] for a string [s]: only the empty string is falsy. *)
Definition falsy (s : string) : bool :=
  match s with
  | EmptyString => true
  | String _ _ => false
  end.

(** [c.toLowerCase()] on one code unit below 256: A-Z, and the Latin-1
    capitals U+00C0..U+00DE except the multiplication sign U+00D7. *)
Definition lowerChar (c : ascii) : ascii :=
  let n := N_of_ascii c in
  if ((65 <=? n) && (n <=? 90) || (192 <=? n) && (n <=? 222) && negb (n =? 215))%N
  then ascii_of_N (n + 32)
  else c.

Fixpoint toLowerCase (s : string) : string :=
  match s with
  | EmptyString => EmptyString
  | String c s' => String (lowerChar c) (toLowerCase s')
  end.

(** [n.toString()] for an integral number. *)
Definition toString (n : Z) : string := NilZero.string_of_int (Z.to_int n).

End JS.

(** ** Regular expressions *)
Module Regex.

Inductive regex : Type :=
| Void
| Eps
| Class (p : ascii -> bool)
| Seq (r1 r2 : regex)
| Alt (r1 r2 : regex)
| Star (r : regex).

(** [r+] *)
Definition Plus (r : regex) : regex := Seq r (Star r).

(** A literal character. *)
Definition Lit (c : ascii) : regex := Class (Ascii.eqb c).

Fixpoint nullable (r : regex) : bool :=
  match r with
  | Void => false
  | Eps => true
  | Class _ => false
  | Seq r1 r2 => nullable r1 && nullable r2
  | Alt r1 r2 => nullable r1 || nullable r2
  | Star _ => true
  end.

Fixpoint deriv (c : ascii) (r : regex) : regex :=
  match r with
  | Void => Void
  | Eps => Void
  | Class p => if p c then Eps else Void
  | Seq r1 r2 =>
      if nullable r1
      then Alt (Seq (deriv c r1) r2) (deriv c r2)
      else Seq (deriv c r1) r2
  | Alt r1 r2 => Alt (deriv c r1) (deriv c r2)
  | Star r1 => Seq (deriv c r1) (Star r1)
  end.

Fixpoint matches (r : regex) (l : list ascii) : bool :=
  match l with
  | [] => nullable r
  | c :: l' => matches (deriv c r) l'
  end.

(** [/^r$/.test(s)]: the whole of [s] is a word of [r]. *)
Definition test (r : regex) (s : string) : bool :=
  matches r (list_ascii_of_string s).

(** The words of a regular expression. *)
Inductive lang : regex -> list ascii -> Prop :=
| lang_eps : lang Eps []
| lang_class p c : p c = true -> lang (Class p) [c]
| lang_seq r1 r2 l1 l2 : lang r1 l1 -> lang r2 l2 -> lang (Seq r1 r2) (l1 ++ l2)
| lang_alt_l r1 r2 l : lang r1 l -> lang (Alt r1 r2) l
| lang_alt_r r1 r2 l : lang r2 l -> lang (Alt r1 r2) l
| lang_star_nil r : lang (Star r) []
| lang_star_app r l1 l2 : lang r l1 -> lang (Star r) l2 -> lang (Star r) (l1 ++ l2).

End Regex.

(** ** Form validation (Signup.tsx, Login.tsx) *)
Module Validator.
Import JS Regex.

(** [[^\s@]] *)
Definition notSpaceAt (c : ascii) : bool :=
  negb (isWhiteSpace c || Ascii.eqb c "@").

(** [/^[^\s@]+@[^\s@]+\.[^\s@]+$/] *)
Definition emailRegex : regex :=
  Seq (Plus (Class notSpaceAt))
    (Seq (Lit "@")
       (Seq (Plus (Class notSpaceAt))
          (Seq (Lit ".") (Plus (Class notSpaceAt))))).

(** [keyof ValidationErrors] of the signup form. *)
Inductive field : Type := name | email | password | confirmPassword.

(** [validateField] of the signup form; [formPassword] is the
    [formState.password] that the closure reads.  [None] is [undefined]. *)
Definition validateField (formPassword : string) (f : field) (value : string)
  : option string :=
  match f with
  | name =>
      if falsy (trim value) then Some "Name is required"
      else if (String.length (trim value) <? 2)%nat
           then Some "Name must be at least 2 characters"
           else None
  | email =>
      if falsy (trim value) then Some "Email is required"
      else if negb (test emailRegex value)
           then Some "Email address is incomplete"
           else None
  | password =>
      if falsy value then Some "Password is required"
      else if (String.length value <? 6)%nat
           then Some "Password must be at least 6 characters"
           else None
  | confirmPassword =>
      if falsy value then Some "Please confirm your password"
      else if negb (String.eqb value formPassword)
           then Some "Passwords do not match"
           else None
  end.

(** [validateField] of the login form: the same two cases. *)
Definition validateFieldLogin (f : field) (value : string) : option string :=
  match f with
  | email =>
      if falsy (trim value) then Some "Email is required"
      else if negb (test emailRegex value)
           then Some "Email address is incomplete"
           else None
  | password =>
      if falsy value then Some "Password is required"
      else if (String.length value <? 6)%nat
           then Some "Password must be at least 6 characters"
           else None
  | _ => None
  end.

End Validator.

(** ** The authentication provider (AuthContext.tsx) *)
Module Auth.
Import JS Regex.

(** [interface User] *)
Record User : Type := mkUser {
  User_name : string;
  User_email : string;
  User_id : string
}.

(** [interface StoredUser] *)
Record StoredUser : Type := mkStoredUser {
  StoredUser_name : string;
  StoredUser_email : string;
  StoredUser_password : string;
  StoredUser_id : string
}.

(** [interface AuthResult]; [error = None] is an absent [error] key. *)
Record AuthResult : Type := mkAuthResult {
  success : bool;
  error : option string
}.

Definition AUTH_STORAGE_KEY : string := "@auth_user".
Definition USERS_STORAGE_KEY : string := "@auth_users".

(** The part of the [JSON] object that the provider uses, at the types the
    source annotates: [JSON.stringify] on a [User] and on a [StoredUser[]],
    and [JSON.parse] of a stored text read back at these types ([None]: the
    parse throws).  The library is a parameter of the development; what is
    known of it is that parsing inverts printing and that a printed value is
    never the empty text. *)
Class JSON : Type := {
  stringify_User : User -> string;
  parse_User : string -> option User;
  stringify_StoredUsers : list StoredUser -> string;
  parse_StoredUsers : string -> option (list StoredUser);
  parse_stringify_User :
    forall u, parse_User (stringify_User u) = Some u;
  parse_stringify_StoredUsers :
    forall l, parse_StoredUsers (stringify_StoredUsers l) = Some l;
  stringify_User_truthy :
    forall u, falsy (stringify_User u) = false;
  stringify_StoredUsers_truthy :
    forall l, falsy (stringify_StoredUsers l) = false
}.

(** What an execution leaves behind, in order: the AsyncStorage calls that
    were issued (whether or not they were rejected), the state setters that
    were called, and the lines written with [console.error]. *)
Inductive event : Type :=
| GetItem (key : string)
| SetItem (key value : string)
| RemoveItem (key : string)
| SetUser (u : option User)
| SetIsLoading (b : bool)
| ConsoleError (label : string).

(** The provider's two [useState] cells, the contents of AsyncStorage, and
    the environment's decisions: [plan] tells, for the AsyncStorage calls to
    come, which ones are rejected (a storage fault); once the plan is used up
    no call is rejected. *)
Record World : Type := mkWorld {
  storage : gmap string string;
  user : option User;
  isLoading : bool;
  plan : list bool;
  trace : list event
}.

Inductive outcome (A : Type) : Type :=
| Ok (a : A)
| Throw (e : string).
Arguments Ok {A} a.
Arguments Throw {A} e.

(** Computations of the provider: they read and change the world, and end
    with a value or with a thrown exception (a rejected promise). *)
Definition M (A : Type) : Type := World -> outcome A * World.

Definition ret {A} (a : A) : M A := fun w => (Ok a, w).

Definition throw {A} (e : string) : M A := fun w => (Throw e, w).

Definition bind {A B} (m : M A) (k : A -> M B) : M B :=
  fun w =>
    match m w with
    | (Ok a, w') => k a w'
    | (Throw e, w') => (Throw e, w')
    end.

Declare Scope auth_scope.
Delimit Scope auth_scope with auth.
Notation "'let!' x ':=' m 'in' k" :=
  (bind m (fun x => k))
  (at level 10, x name, m at level 100, k at level 200) : auth_scope.
Notation "m ';;' k" :=
  (bind m (fun _ => k))
  (at level 100, k at level 200, right associativity) : auth_scope.
Local Open Scope auth_scope.

(** [try { body } catch (error) { handler }] *)
Definition try_catch {A} (body : M A) (handler : string -> M A) : M A :=
  fun w =>
    match body w with
    | (Ok a, w') => (Ok a, w')
    | (Throw e, w') => handler e w'
    end.

(** [try { body } finally { final }] *)
Definition try_finally {A} (body : M A) (final : M unit) : M A :=
  fun w =>
    match body w with
    | (r, w') =>
        match final w' with
        | (Ok _, w'') => (r, w'')
        | (Throw e, w'') => (Throw e, w'')
        end
    end.

Definition emit (e : event) : M unit :=
  fun w =>
    (Ok tt, mkWorld (storage w) (user w) (isLoading w) (plan w) (trace w ++ [e])).

(** The environment's decision for the AsyncStorage call being made. *)
Definition rejected : M bool :=
  fun w =>
    match plan w with
    | [] => (Ok false, w)
    | b :: p => (Ok b, mkWorld (storage w) (user w) (isLoading w) p (trace w))
    end.

Definition storage_fault : string := "AsyncStorage failure".

(** [await AsyncStorage.getItem(key)]; [None] is [null]. *)
Definition AsyncStorage_getItem (key : string) : M (option string) :=
  emit (GetItem key) ;;
  let! r := rejected in
  if r then throw storage_fault
  else fun w => (Ok (storage w !! key), w).

(** [await AsyncStorage.setItem(key, value)]: all or nothing. *)
Definition AsyncStorage_setItem (key value : string) : M unit :=
  emit (SetItem key value) ;;
  let! r := rejected in
  if r then throw storage_fault
  else fun w =>
    (Ok tt, mkWorld (<[key := value]> (storage w)) (user w) (isLoading w)
              (plan w) (trace w)).

(** [await AsyncStorage.removeItem(key)] *)
Definition AsyncStorage_removeItem (key : string) : M unit :=
  emit (RemoveItem key) ;;
  let! r := rejected in
  if r then throw storage_fault
  else fun w =>
    (Ok tt, mkWorld (delete key (storage w)) (user w) (isLoading w)
              (plan w) (trace w)).

Definition setUser (u : option User) : M unit :=
  emit (SetUser u) ;;
  fun w => (Ok tt, mkWorld (storage w) u (isLoading w) (plan w) (trace w)).

Definition setIsLoading (b : bool) : M unit :=
  emit (SetIsLoading b) ;;
  fun w => (Ok tt, mkWorld (storage w) (user w) b (plan w) (trace w)).

Definition console_error (label : string) : M unit := emit (ConsoleError label).

Definition syntax_error : string := "SyntaxError".

Section Provider.
Context `{JSON}.

(** [JSON.parse(text)] read at type [User] *)
Definition JSON_parse_User (text : string) : M User :=
  match parse_User text with
  | Some u => ret u
  | None => throw syntax_error
  end.

(** [JSON.parse(text)] read at type [StoredUser[]] *)
Definition JSON_parse_StoredUsers (text : string) : M (list StoredUser) :=
  match parse_StoredUsers text with
  | Some l => ret l
  | None => throw syntax_error
  end.

Definition loadUser : M unit :=
  try_finally
    (try_catch
       (let! storedUser := AsyncStorage_getItem AUTH_STORAGE_KEY in
        match storedUser with
        | Some text =>
            if falsy text then ret tt
            else let! u := JSON_parse_User text in setUser (Some u)
        | None => ret tt
        end)
       (fun _ => console_error "Error loading user:"))
    (setIsLoading false).

Definition getStoredUsers : M (list StoredUser) :=
  try_catch
    (let! users := AsyncStorage_getItem USERS_STORAGE_KEY in
     match users with
     | Some text => if falsy text then ret [] else JSON_parse_StoredUsers text
     | None => ret []
     end)
    (fun _ => console_error "Error getting stored users:" ;; ret []).

Definition saveStoredUsers (users : list StoredUser) : M unit :=
  try_catch
    (AsyncStorage_setItem USERS_STORAGE_KEY (stringify_StoredUsers users))
    (fun _ => console_error "Error saving users:").

Definition failure (msg : string) : AuthResult := mkAuthResult false (Some msg).

Definition login (email password : string) : M AuthResult :=
  try_catch
    (if falsy email || falsy password
     then ret (failure "Email and password are required")
     else
       let! users := getStoredUsers in
       let foundUser :=
         find (fun u =>
                 String.eqb (toLowerCase (StoredUser_email u)) (toLowerCase email)
                 && String.eqb (StoredUser_password u) password)
              users in
       match foundUser with
       | None => ret (failure "Invalid email or password")
       | Some foundUser =>
           let loggedInUser :=
             mkUser (StoredUser_name foundUser) (StoredUser_email foundUser)
                    (StoredUser_id foundUser) in
           setUser (Some loggedInUser) ;;
           AsyncStorage_setItem AUTH_STORAGE_KEY (stringify_User loggedInUser) ;;
           ret (mkAuthResult true None)
       end)
    (fun _ =>
       console_error "Login error:" ;;
       ret (failure "An unexpected error occurred during login")).

(** [/^[^\s@]+@[^\s@]+\.[^\s@]+$/] *)
Definition emailRegex : regex :=
  Seq (Plus (Class Validator.notSpaceAt))
    (Seq (Lit "@")
       (Seq (Plus (Class Validator.notSpaceAt))
          (Seq (Lit ".") (Plus (Class Validator.notSpaceAt))))).

(** [now] is the number that [Date.now()] returns during the call. *)
Definition signup (now : Z) (name email password : string) : M AuthResult :=
  try_catch
    (if falsy name || falsy email || falsy password
     then ret (failure "Name, email, and password are required")
     else if negb (test emailRegex email)
     then ret (failure "Invalid email format")
     else if (String.length password <? 6)%nat
     then ret (failure "Password must be at least 6 characters")
     else
       let! users := getStoredUsers in
       let existingUser :=
         find (fun u =>
                 String.eqb (toLowerCase (StoredUser_email u)) (toLowerCase email))
              users in
       match existingUser with
       | Some _ => ret (failure "User with this email already exists")
       | None =>
           let newUser := mkStoredUser name email password (toString now) in
           let users := (users ++ [newUser])%list in
           saveStoredUsers users ;;
           let loggedInUser :=
             mkUser (StoredUser_name newUser) (StoredUser_email newUser)
                    (StoredUser_id newUser) in
           setUser (Some loggedInUser) ;;
           AsyncStorage_setItem AUTH_STORAGE_KEY (stringify_User loggedInUser) ;;
           ret (mkAuthResult true None)
       end)
    (fun _ =>
       console_error "Signup error:" ;;
       ret (failure "An unexpected error occurred during signup")).

Definition logout : M AuthResult :=
  try_catch
    (setUser None ;;
     AsyncStorage_removeItem AUTH_STORAGE_KEY ;;
     ret (mkAuthResult true None))
    (fun _ =>
       console_error "Logout error:" ;;
       ret (failure "An unexpected error occurred during logout")).

(** The provider when it is first rendered: [useState(null)],
    [useState(true)]. *)
Definition initial (st : gmap string string) (p : list bool) : World :=
  mkWorld st None true p [].

(** [useEffect(() => { loadUser(); }, [])]: the effect of the mount. *)
Definition mount : M unit := loadUser.

End Provider.

End Auth.

(** ** A JSON printer and reader for the two stored shapes

    One implementation of the [JSON] interface, used to run the provider on
    concrete inputs: it prints what [JSON.stringify] prints for a [User] and
    for a [StoredUser[]] (keys in creation order, no white space, the
    escapes of the quote, the backslash and the control characters) and
    reads that text back. *)
Module Codec.
Import JS Auth.

Definition dquote : ascii := ascii_of_N 34.
Definition backslash : ascii := ascii_of_N 92.

Definition hexDigit (n : N) : ascii :=
  if (n <? 10)%N then ascii_of_N (48 + n) else ascii_of_N (87 + n).

Definition hexValue (c : ascii) : option N :=
  let n := N_of_ascii c in
  if ((48 <=? n) && (n <=? 57))%N then Some (n - 48)%N
  else if ((97 <=? n) && (n <=? 102))%N then Some (n - 87)%N
  else if ((65 <=? n) && (n <=? 70))%N then Some (n - 55)%N
  else None.

(** The text of one character inside a JSON string. *)
Definition escapeChar (c : ascii) : string :=
  let n := N_of_ascii c in
  if Ascii.eqb c dquote then String backslash (String dquote "")
  else if Ascii.eqb c backslash then String backslash (String backslash "")
  else if (n =? 8)%N then String backslash "b"
  else if (n =? 9)%N then String backslash "t"
  else if (n =? 10)%N then String backslash "n"
  else if (n =? 12)%N then String backslash "f"
  else if (n =? 13)%N then String backslash "r"
  else if (n <? 32)%N
       then String backslash
              (String "u" (String "0" (String "0"
                 (String (hexDigit (n / 16)) (String (hexDigit (n mod 16)) "")))))
       else String c "".

Fixpoint putChars (s rest : string) : string :=
  match s with
  | EmptyString => rest
  | String c s' => escapeChar c ++ putChars s' rest
  end.

Definition putString (s rest : string) : string :=
  String dquote (putChars s (String dquote rest)).

Definition putMember (key value rest : string) : string :=
  putString key (String ":" (putString value rest)).

Definition putUser (u : User) (rest : string) : string :=
  String "{" (putMember "name" (User_name u)
    (String "," (putMember "email" (User_email u)
      (String "," (putMember "id" (User_id u)
        (String "}" rest)))))).

Definition putStoredUser (u : StoredUser) (rest : string) : string :=
  String "{" (putMember "name" (StoredUser_name u)
    (String "," (putMember "email" (StoredUser_email u)
      (String "," (putMember "password" (StoredUser_password u)
        (String "," (putMember "id" (StoredUser_id u)
          (String "}" rest)))))))).

Fixpoint putElems (l : list StoredUser) (rest : string) : string :=
  match l with
  | [] => rest
  | [u] => putStoredUser u rest
  | u :: l' => putStoredUser u (String "," (putElems l' rest))
  end.

Definition putStoredUsers (l : list StoredUser) (rest : string) : string :=
  String "[" (putElems l (String "]" rest)).

(** Reads the characters of a JSON string up to its closing quote; gives the
    characters read and the text after the quote. *)
Fixpoint getChars (s : string) : option (string * string) :=
  let more (c : ascii) (s' : option (string * string)) :=
    match s' with
    | Some (t, rest) => Some (String c t, rest)
    | None => None
    end in
  match s with
  | EmptyString => None
  | String c s1 =>
      if Ascii.eqb c dquote then Some (EmptyString, s1)
      else if Ascii.eqb c backslash then
        match s1 with
        | EmptyString => None
        | String e s2 =>
            if Ascii.eqb e dquote then more dquote (getChars s2)
            else if Ascii.eqb e backslash then more backslash (getChars s2)
            else if Ascii.eqb e "/" then more "/"%char (getChars s2)
            else if Ascii.eqb e "b" then more (ascii_of_N 8) (getChars s2)
            else if Ascii.eqb e "t" then more (ascii_of_N 9) (getChars s2)
            else if Ascii.eqb e "n" then more (ascii_of_N 10) (getChars s2)
            else if Ascii.eqb e "f" then more (ascii_of_N 12) (getChars s2)
            else if Ascii.eqb e "r" then more (ascii_of_N 13) (getChars s2)
            else if Ascii.eqb e "u" then
              match s2 with
              | String "0" (String "0" (String h (String l s3))) =>
                  match hexValue h, hexValue l with
                  | Some a, Some b => more (ascii_of_N (16 * a + b)) (getChars s3)
                  | _, _ => None
                  end
              | _ => None
              end
            else None
        end
      else if (N_of_ascii c <? 32)%N then None
      else more c (getChars s1)
  end.

Definition getChar (c : ascii) (s : string) : option string :=
  match s with
  | String c' s' => if Ascii.eqb c c' then Some s' else None
  | EmptyString => None
  end.

Definition getString (s : string) : option (string * string) :=
  match getChar dquote s with
  | Some s' => getChars s'
  | None => None
  end.

Definition getMember (key s : string) : option (string * string) :=
  match getString s with
  | Some (k, s1) =>
      if String.eqb k key then
        match getChar ":" s1 with
        | Some s2 => getString s2
        | None => None
        end
      else None
  | None => None
  end.

Definition getUser (s : string) : option (User * string) :=
  s ← getChar "{" s;
  '(n, s) ← getMember "name" s;
  s ← getChar "," s;
  '(e, s) ← getMember "email" s;
  s ← getChar "," s;
  '(i, s) ← getMember "id" s;
  s ← getChar "}" s;
  Some (mkUser n e i, s).

Definition getStoredUser (s : string) : option (StoredUser * string) :=
  s ← getChar "{" s;
  '(n, s) ← getMember "name" s;
  s ← getChar "," s;
  '(e, s) ← getMember "email" s;
  s ← getChar "," s;
  '(p, s) ← getMember "password" s;
  s ← getChar "," s;
  '(i, s) ← getMember "id" s;
  s ← getChar "}" s;
  Some (mkStoredUser n e p i, s).

Fixpoint getElems (fuel : nat) (s : string) : option (list StoredUser * string) :=
  match fuel with
  | O => None
  | S fuel' =>
      '(u, s1) ← getStoredUser s;
      match s1 with
      | String c s2 =>
          if Ascii.eqb c "," then
            '(l, s3) ← getElems fuel' s2; Some (u :: l, s3)
          else if Ascii.eqb c "]" then Some ([u], s2)
          else None
      | EmptyString => None
      end
  end.

Definition getStoredUsers (s : string) : option (list StoredUser * string) :=
  s1 ← getChar "[" s;
  match s1 with
  | String c s2 =>
      if Ascii.eqb c "]" then Some ([], s2) else getElems (String.length s1) s1
  | EmptyString => None
  end.

Definition whole {A} (r : option (A * string)) : option A :=
  match r with
  | Some (a, EmptyString) => Some a
  | _ => None
  end.

Definition stringify_User (u : User) : string := putUser u "".
Definition parse_User (s : string) : option User := whole (getUser s).
Definition stringify_StoredUsers (l : list StoredUser) : string :=
  putStoredUsers l "".
Definition parse_StoredUsers (s : string) : option (list StoredUser) :=
  whole (getStoredUsers s).

End Codec.

(** ** The printer and the reader of the codec are inverse *)
Section CodecFacts.
Import JS Auth Codec.

Lemma getChars_escapeChar (c : ascii) (t : string) :
  getChars (escapeChar c ++ t) =
  match getChars t with
  | Some (t', rest) => Some (String c t', rest)
  | None => None
  end.
Proof.
  destruct c as [[] [] [] [] [] [] [] []]; reflexivity.
Qed.

Lemma getChars_putChars (s rest : string) :
  getChars (putChars s (String dquote rest)) = Some (s, rest).
Proof.
  induction s as [| c s IH].
  - reflexivity.
  - cbn [putChars]. rewrite getChars_escapeChar, IH. reflexivity.
Qed.

Lemma getString_putString (s rest : string) :
  getString (putString s rest) = Some (s, rest).
Proof. unfold getString, putString. cbn [getChar]. rewrite Ascii.eqb_refl. apply getChars_putChars. Qed.

Lemma getMember_putMember (key value rest : string) :
  getMember key (putMember key value rest) = Some (value, rest).
Proof.
  unfold getMember, putMember.
  rewrite getString_putString, String.eqb_refl. cbn [getChar].
  rewrite Ascii.eqb_refl. apply getString_putString.
Qed.

Lemma getUser_putUser (u : User) (rest : string) :
  getUser (putUser u rest) = Some (u, rest).
Proof.
  destruct u as [n e i]. unfold getUser, putUser. cbn.
  repeat (rewrite getMember_putMember; cbn). reflexivity.
Qed.

Lemma getStoredUser_putStoredUser (u : StoredUser) (rest : string) :
  getStoredUser (putStoredUser u rest) = Some (u, rest).
Proof.
  destruct u as [n e p i]. unfold getStoredUser, putStoredUser. cbn.
  repeat (rewrite getMember_putMember; cbn). reflexivity.
Qed.

Lemma length_append (s t : string) :
  String.length (s ++ t) = String.length s + String.length t.
Proof. induction s as [| c s IH]; simpl; [| rewrite IH]; reflexivity. Qed.

Lemma length_putChars (s rest : string) :
  String.length rest <= String.length (putChars s rest).
Proof.
  induction s as [| c s IH]; simpl; [lia |].
  rewrite length_append. lia.
Qed.

Lemma length_putString (s rest : string) :
  String.length rest < String.length (putString s rest).
Proof.
  unfold putString. simpl.
  pose proof (length_putChars s (String dquote rest)). simpl in *. lia.
Qed.

Lemma length_putMember (key value rest : string) :
  String.length rest < String.length (putMember key value rest).
Proof.
  unfold putMember.
  pose proof (length_putString key (String ":" (putString value rest))).
  pose proof (length_putString value rest). simpl in *. lia.
Qed.

Lemma length_putStoredUser (u : StoredUser) (rest : string) :
  String.length rest < String.length (putStoredUser u rest).
Proof.
  unfold putStoredUser.
  pose proof (length_putMember "id" (StoredUser_id u) (String "}" rest)) as H4.
  revert H4. generalize (putMember "id" (StoredUser_id u) (String "}" rest)).
  intros m4 H4.
  pose proof (length_putMember "password" (StoredUser_password u)
                (String "," m4)) as H3.
  revert H3. generalize (putMember "password" (StoredUser_password u)
                           (String "," m4)).
  intros m3 H3.
  pose proof (length_putMember "email" (StoredUser_email u)
                (String "," m3)) as H2.
  revert H2. generalize (putMember "email" (StoredUser_email u)
                           (String "," m3)).
  intros m2 H2.
  pose proof (length_putMember "name" (StoredUser_name u)
                (String "," m2)) as H1.
  revert H1. generalize (putMember "name" (StoredUser_name u)
                           (String "," m2)).
  intros m1 H1.
  cbn [String.length] in *. lia.
Qed.

Lemma length_putElems (l : list StoredUser) (rest : string) :
  length l + String.length rest <= String.length (putElems l rest).
Proof.
  induction l as [| u l IH]; [simpl; lia |].
  destruct l as [| v l].
  - pose proof (length_putStoredUser u rest). simpl in *. lia.
  - change (putElems (u :: v :: l) rest)
      with (putStoredUser u (String "," (putElems (v :: l) rest))).
    pose proof (length_putStoredUser u (String "," (putElems (v :: l) rest))).
    simpl in *. lia.
Qed.

Lemma getElems_putElems (l : list StoredUser) :
  forall (fuel : nat) (rest : string),
    l <> [] -> length l <= fuel ->
    getElems fuel (putElems l (String "]" rest)) = Some (l, rest).
Proof.
  induction l as [| u l IH]; intros fuel rest Hne Hfuel; [congruence |].
  destruct fuel as [| fuel]; [simpl in Hfuel; lia |].
  destruct l as [| v l].
  - cbn [putElems getElems]. rewrite getStoredUser_putStoredUser. reflexivity.
  - change (putElems (u :: v :: l) (String "]" rest))
      with (putStoredUser u (String "," (putElems (v :: l) (String "]" rest)))).
    remember (putElems (v :: l) (String "]" rest)) as t eqn:Et.
    cbn [getElems]. rewrite getStoredUser_putStoredUser. cbn. subst t.
    rewrite IH; [reflexivity | discriminate | simpl in *; lia].
Qed.

Lemma getStoredUsers_putStoredUsers (l : list StoredUser) (rest : string) :
  Codec.getStoredUsers (putStoredUsers l rest) = Some (l, rest).
Proof.
  unfold Codec.getStoredUsers, putStoredUsers. cbn [getChar].
  rewrite Ascii.eqb_refl. cbn.
  destruct l as [| u l]; [reflexivity |].
  remember (u :: l) as k eqn:Ek.
  assert (exists c s, putElems k (String "]" rest) = String c s
                      /\ Ascii.eqb c "]" = false) as (c & s & Es & Ec).
  { subst k. destruct l; cbn; eauto. }
  rewrite Es, Ec, <- Es.
  apply getElems_putElems; [subst; discriminate |].
  pose proof (length_putElems k (String "]" rest)). lia.
Qed.

End CodecFacts.

(** The codec implements the interface that the provider relies on. *)
#[export] Instance Codec_JSON : Auth.JSON.
Proof.
  refine {| Auth.stringify_User := Codec.stringify_User;
            Auth.parse_User := Codec.parse_User;
            Auth.stringify_StoredUsers := Codec.stringify_StoredUsers;
            Auth.parse_StoredUsers := Codec.parse_StoredUsers |}.
  - intros u. unfold Codec.parse_User, Codec.stringify_User.
    rewrite getUser_putUser. reflexivity.
  - intros l. unfold Codec.parse_StoredUsers, Codec.stringify_StoredUsers.
    rewrite getStoredUsers_putStoredUsers. reflexivity.
  - reflexivity.
  - reflexivity.
Defined.

(** Sample data for running the provider with the codec. *)
Module Sample.
Import Auth.

Definition john : User := mkUser "John Doe" "john@example.com" "1700000000000".

Definition johnAccount : StoredUser :=
  mkStoredUser "John Doe" "john@example.com" "password123" "1700000000000".

(** A provider that is ready, with nobody logged in and nothing stored. *)
Definition fresh (p : list bool) : World := mkWorld ∅ None false p [].

(** A provider in which John is registered and logged in. *)
Definition johnIn (p : list bool) : World :=
  mkWorld
    (<[AUTH_STORAGE_KEY := stringify_User john]>
       {[USERS_STORAGE_KEY := stringify_StoredUsers [johnAccount]]})
    (Some john) false p [].

(** A provider in which John is registered and nobody is logged in. *)
Definition johnOut (p : list bool) : World :=
  mkWorld {[USERS_STORAGE_KEY := stringify_StoredUsers [johnAccount]]}
    None false p [].

End Sample.

(** ** The email shape as the specification words it *)
Module EmailSpec.
Import JS.

(** One or more characters that are neither white space nor [@]. *)
Definition word (s : string) : Prop :=
  s <> "" /\
  Forall (fun c => isWhiteSpace c = false /\ c <> "@"%char)
         (list_ascii_of_string s).

(** A word, [@], a word, a dot, a word. *)
Definition emailShape (v : string) : Prop :=
  exists a b c : string,
    v = a ++ "@" ++ b ++ "." ++ c /\ word a /\ word b /\ word c.

End EmailSpec.

(** ** Vocabulary of the statements about the provider *)
Module AuthSpec.
Import JS Regex Auth.

(** None of the next [n] AsyncStorage calls is rejected. *)
Definition calm (n : nat) (p : list bool) : bool := forallb negb (firstn n p).

(** The Session User of an account: the account without its password. *)
Definition sessionUser (a : StoredUser) : User :=
  mkUser (StoredUser_name a) (StoredUser_email a) (StoredUser_id a).

(** [a] has the email [email], compared without case. *)
Definition sameEmail (email : string) (a : StoredUser) : Prop :=
  toLowerCase (StoredUser_email a) = toLowerCase email.

(** No two accounts of [l] have emails that are equal without case. *)
Definition uniqueEmails (l : list StoredUser) : Prop :=
  NoDup (map (fun a => toLowerCase (StoredUser_email a)) l).

(** The parameter object of one [signup] call, with the clock reading of
    that call. *)
Record SignupCall : Type := mkSignupCall {
  call_now : Z;
  call_name : string;
  call_email : string;
  call_password : string
}.

(** The predicate that [login] hands to [find]. *)
Definition credentialsMatch (email password : string) (u : StoredUser) : bool :=
  String.eqb (toLowerCase (StoredUser_email u)) (toLowerCase email)
  && String.eqb (StoredUser_password u) password.

(** The predicate that [signup] hands to [find]. *)
Definition emailTaken (email : string) (u : StoredUser) : bool :=
  String.eqb (toLowerCase (StoredUser_email u)) (toLowerCase email).

(** The three input checks of [signup], in the order of the source. *)
Definition passesInputChecks (name email password : string) : bool :=
  negb (falsy name || falsy email || falsy password)
  && test emailRegex email
  && negb (String.length password <? 6)%nat.

Definition isLoad (e : event) : bool :=
  match e with
  | GetItem key => String.eqb key AUTH_STORAGE_KEY
  | _ => false
  end.

Definition isReady (e : event) : bool :=
  match e with
  | SetIsLoading false => true
  | _ => false
  end.

Definition isWrite (e : event) : bool :=
  match e with
  | SetItem _ _ | RemoveItem _ => true
  | _ => false
  end.

Definition count (f : event -> bool) (tr : list event) : nat :=
  length (List.filter f tr).

Section WithJSON.
Context `{JSON}.

(** The stored account collection: what [getStoredUsers] yields when its
    read is not rejected. *)
Definition storedAccounts (st : gmap string string) : list StoredUser :=
  match st !! USERS_STORAGE_KEY with
  | Some text =>
      if falsy text then []
      else match parse_StoredUsers text with
           | Some l => l
           | None => []
           end
  | None => []
  end.

(** The accounts that a call reads in the world [w]: [getStoredUsers]
    answers an empty collection when its read is rejected. *)
Definition visibleAccounts (w : World) : list StoredUser :=
  if hd false (plan w) then [] else storedAccounts (storage w).

(** The user that the provider holds once [loadUser] has run in [w]. *)
Definition restoredUser (w : World) : option User :=
  if hd false (plan w) then user w
  else match storage w !! AUTH_STORAGE_KEY with
       | Some text =>
           if falsy text then user w
           else match parse_User text with
                | Some u => Some u
                | None => user w
                end
       | None => user w
       end.

(** What [loadUser] does in [w] between its read and its [finally]. *)
Definition restoreEvents (w : World) : list event :=
  if hd false (plan w) then [ConsoleError "Error loading user:"]
  else match storage w !! AUTH_STORAGE_KEY with
       | Some text =>
           if falsy text then []
           else match parse_User text with
                | Some u => [SetUser (Some u)]
                | None => [ConsoleError "Error loading user:"]
                end
       | None => []
       end.

(** Calls of [signup] made one after the other. *)
Definition signups (calls : list SignupCall) (w : World) : World :=
  fold_left
    (fun w c =>
       snd (signup (call_now c) (call_name c) (call_email c) (call_password c) w))
    calls w.

End WithJSON.

End AuthSpec.

(** ** Runs of the provider *)
Module AuthRuns.
Import JS Auth.

(** A call that a screen makes on the provider. *)
Inductive operation : Type :=
| Login (email password : string)
| Signup (now : Z) (name email password : string)
| Logout
| Reload.

(** Every AsyncStorage call to come is accepted. *)
Definition faultless (p : list bool) : bool := forallb negb p.

(** An [AuthResult] of the provider: [error] is present, and not empty,
    exactly when [success] is false. *)
Definition resultShape (r : AuthResult) : Prop :=
  (success r = true /\ error r = None) \/
  (success r = false /\ exists msg, error r = Some msg /\ msg <> "").

Section WithJSON.
Context `{JSON}.

Definition perform (w : World) (o : operation) : World :=
  match o with
  | Login email password => snd (login email password w)
  | Signup now name email password => snd (signup now name email password w)
  | Logout => snd (logout w)
  | Reload => snd (loadUser w)
  end.

Definition performAll (ops : list operation) (w : World) : World :=
  fold_left perform ops w.

(** The application is started again on what is in storage. *)
Definition restart (w : World) (p : list bool) : World :=
  snd (mount (initial (storage w) p)).

End WithJSON.

End AuthRuns.

(** ** The screens (Signup.tsx, Login.tsx, Home.tsx, Settings.tsx) *)

(** What [Alert.alert(title, message)] shows. *)
Definition Alert : Type := (string * string)%type.

(** [if (error)] on a [string | undefined]. *)
Definition truthy (e : option string) : bool :=
  match e with
  | Some s => negb (JS.falsy s)
  | None => false
  end.

(** The signup screen (first file of part_002). *)
Module SignupScreen.
Import JS Validator.

(** [interface SignupFormState] *)
Record SignupFormState : Type := mkFormState {
  form_name : string;
  form_email : string;
  form_password : string;
  form_confirmPassword : string;
  form_isLoading : bool;
  form_showPassword : bool
}.

(** [interface ValidationErrors]; [None] is an absent or [undefined] key. *)
Record ValidationErrors : Type := mkErrors {
  error_name : option string;
  error_email : option string;
  error_password : option string;
  error_confirmPassword : option string
}.

(** [interface FieldTouched] *)
Record FieldTouched : Type := mkTouched {
  touched_name : bool;
  touched_email : bool;
  touched_password : bool;
  touched_confirmPassword : bool
}.

(** The three [useState] cells of the screen. *)
Record Screen : Type := mkScreen {
  formState : SignupFormState;
  errors : ValidationErrors;
  touched : FieldTouched
}.

(** [keyof SignupFormState], in the order of [Object.keys(formState)]. *)
Inductive formKey : Type :=
| key_name | key_email | key_password | key_confirmPassword
| key_isLoading | key_showPassword.

Definition formKeys : list formKey :=
  [key_name; key_email; key_password; key_confirmPassword;
   key_isLoading; key_showPassword].

(** The guard [field === "name" || field === "email" || ...] of
    [validateAllFields]. *)
Definition asField (k : formKey) : option field :=
  match k with
  | key_name => Some name
  | key_email => Some email
  | key_password => Some password
  | key_confirmPassword => Some confirmPassword
  | key_isLoading | key_showPassword => None
  end.

(** [formState[field] as string] *)
Definition fieldValue (fs : SignupFormState) (f : field) : string :=
  match f with
  | name => form_name fs
  | email => form_email fs
  | password => form_password fs
  | confirmPassword => form_confirmPassword fs
  end.

(** [{ ...prev, [field]: value }] on the form state, for a text field. *)
Definition setFieldValue (f : field) (value : string) (fs : SignupFormState)
  : SignupFormState :=
  match f with
  | name =>
      mkFormState value (form_email fs) (form_password fs)
        (form_confirmPassword fs) (form_isLoading fs) (form_showPassword fs)
  | email =>
      mkFormState (form_name fs) value (form_password fs)
        (form_confirmPassword fs) (form_isLoading fs) (form_showPassword fs)
  | password =>
      mkFormState (form_name fs) (form_email fs) value
        (form_confirmPassword fs) (form_isLoading fs) (form_showPassword fs)
  | confirmPassword =>
      mkFormState (form_name fs) (form_email fs) (form_password fs)
        value (form_isLoading fs) (form_showPassword fs)
  end.

Definition setIsLoading (b : bool) (fs : SignupFormState) : SignupFormState :=
  mkFormState (form_name fs) (form_email fs) (form_password fs)
    (form_confirmPassword fs) b (form_showPassword fs).

(** [errors[field]] *)
Definition errorOf (errs : ValidationErrors) (f : field) : option string :=
  match f with
  | name => error_name errs
  | email => error_email errs
  | password => error_password errs
  | confirmPassword => error_confirmPassword errs
  end.

(** [{ ...prev, [field]: error }] on the errors. *)
Definition setError (f : field) (e : option string) (errs : ValidationErrors)
  : ValidationErrors :=
  match f with
  | name =>
      mkErrors e (error_email errs) (error_password errs)
        (error_confirmPassword errs)
  | email =>
      mkErrors (error_name errs) e (error_password errs)
        (error_confirmPassword errs)
  | password =>
      mkErrors (error_name errs) (error_email errs) e
        (error_confirmPassword errs)
  | confirmPassword =>
      mkErrors (error_name errs) (error_email errs) (error_password errs) e
  end.

(** [touched[field]] *)
Definition touchedOf (t : FieldTouched) (f : field) : bool :=
  match f with
  | name => touched_name t
  | email => touched_email t
  | password => touched_password t
  | confirmPassword => touched_confirmPassword t
  end.

Definition noErrors : ValidationErrors := mkErrors None None None None.

(** The screen when it is first rendered. *)
Definition initialScreen : Screen :=
  mkScreen (mkFormState "" "" "" "" false false) noErrors
    (mkTouched false false false false).

(** [updateFormField(field, value)] for a text field: the handler reads the
    [errors] of the render it belongs to ([s]) and queues its updates. *)
Definition updateFormField (f : field) (value : string) (s : Screen) : Screen :=
  mkScreen (setFieldValue f value (formState s))
    (if truthy (errorOf (errors s) f) then setError f None (errors s)
     else errors s)
    (touched s).

(** [validateField] as the screen calls it. *)
Definition validate (fs : SignupFormState) (f : field) : option string :=
  validateField (form_password fs) f (fieldValue fs f).

(** The loop of [validateAllFields]: [newErrors] and [isValid] after the
    keys of the form state have been visited. *)
Definition collectErrors (fs : SignupFormState) : ValidationErrors * bool :=
  fold_left
    (fun (acc : ValidationErrors * bool) (k : formKey) =>
       match asField k with
       | Some f =>
           let error := validate fs f in
           if truthy error then (setError f error (fst acc), false) else acc
       | None => acc
       end)
    formKeys (noErrors, true).

(** [validateAllFields()]: its answer, and the screen after [setErrors] and
    [setTouched]. *)
Definition validateAllFields (s : Screen) : bool * Screen :=
  let '(newErrors, isValid) := collectErrors (formState s) in
  (isValid,
   mkScreen (formState s) newErrors (mkTouched true true true true)).

(** [getPasswordMatchStatus()]; [None] is [null]. *)
Definition getPasswordMatchStatus (fs : SignupFormState) : option string :=
  if falsy (form_confirmPassword fs) then None
  else if String.eqb (form_password fs) (form_confirmPassword fs)
       then Some "match"
       else Some "mismatch".

(** The error text that the screen renders beneath a field,
    [touched[field] && errors[field] && <Text>{errors[field]}</Text>];
    [None] when nothing is rendered. *)
Definition shownError (s : Screen) (f : field) : option string :=
  if touchedOf (touched s) f && truthy (errorOf (errors s) f)
  then errorOf (errors s) f
  else None.

(** [onChangeText] of the password input. *)
Definition onChangePassword (value : string) (s : Screen) : Screen :=
  let s1 := updateFormField password value s in
  let errs2 :=
    if (0 <? String.length value)%nat && (String.length value <? 6)%nat
    then setError password (Some "Password must be at least 6 characters")
           (errors s1)
    else if truthy (error_password (errors s))
         then setError password None (errors s1)
         else errors s1 in
  let errs3 :=
    if touched_confirmPassword (touched s)
       && negb (falsy (form_confirmPassword (formState s)))
    then setError confirmPassword
           (if negb (String.eqb value (form_confirmPassword (formState s)))
            then Some "Passwords do not match" else None)
           errs2
    else errs2 in
  mkScreen (formState s1) errs3 (touched s1).

Section WithJSON.
Context `{Auth.JSON}.

(** [handleSignup()]: the screen, the provider and the alerts after it.
    [now] is the clock reading of the [signup] it may call. *)
Definition handleSignup (now : Z) (s : Screen) (w : Auth.World)
  : Screen * Auth.World * list Alert :=
  let fs := formState s in
  let '(isValid, s1) := validateAllFields s in
  if negb isValid then (s1, w, [])
  else
    let loading := mkScreen (setIsLoading true (formState s1)) (errors s1)
                     (touched s1) in
    let done (s' : Screen) :=
      mkScreen (setIsLoading false (formState s')) (errors s') (touched s') in
    match Auth.signup now (trim (form_name fs)) (trim (form_email fs))
            (form_password fs) w with
    | (Auth.Ok _, w') => (done loading, w', [])
    | (Auth.Throw e, w') => (done loading, w', [("Signup Failed", e)])
    end.

End WithJSON.

End SignupScreen.

(** The login screen (Login.tsx). *)
Module LoginScreen.
Import JS Validator.

(** [interface LoginFormState] *)
Record LoginFormState : Type := mkFormState {
  form_email : string;
  form_password : string;
  form_isLoading : bool;
  form_showPassword : bool
}.

(** [interface ValidationErrors] *)
Record ValidationErrors : Type := mkErrors {
  error_email : option string;
  error_password : option string
}.

(** [interface FieldTouched] *)
Record FieldTouched : Type := mkTouched {
  touched_email : bool;
  touched_password : bool
}.

Record Screen : Type := mkScreen {
  formState : LoginFormState;
  errors : ValidationErrors;
  touched : FieldTouched
}.

Definition setIsLoading (b : bool) (fs : LoginFormState) : LoginFormState :=
  mkFormState (form_email fs) (form_password fs) b (form_showPassword fs).

(** The loop of [validateAllFields] over ["email"] and ["password"]. *)
Definition collectErrors (fs : LoginFormState) : ValidationErrors * bool :=
  let afterEmail :=
    let error := validateFieldLogin email (form_email fs) in
    if truthy error then (mkErrors error None, false)
    else (mkErrors None None, true) in
  let error := validateFieldLogin password (form_password fs) in
  if truthy error
  then (mkErrors (error_email (fst afterEmail)) error, false)
  else afterEmail.

Definition validateAllFields (s : Screen) : bool * Screen :=
  let '(newErrors, isValid) := collectErrors (formState s) in
  (isValid, mkScreen (formState s) newErrors (mkTouched true true)).

Section WithJSON.
Context `{Auth.JSON}.

(** [handleLogin()]: how it ends, and the screen, the provider and the
    alerts after it.  Nothing catches an exception of [login] here. *)
Definition handleLogin (s : Screen) (w : Auth.World)
  : Auth.outcome unit * (Screen * Auth.World * list Alert) :=
  let fs := formState s in
  let '(isValid, s1) := validateAllFields s in
  if negb isValid then (Auth.Ok tt, (s1, w, []))
  else
    let loading := mkScreen (setIsLoading true (formState s1)) (errors s1)
                     (touched s1) in
    match Auth.login (trim (form_email fs)) (form_password fs) w with
    | (Auth.Ok result, w') =>
        let done := mkScreen (setIsLoading false (formState loading))
                      (errors loading) (touched loading) in
        (Auth.Ok tt,
         (done, w',
          if negb (Auth.success result) && truthy (Auth.error result)
          then [("Login Failed", default "" (Auth.error result))]
          else []))
    | (Auth.Throw e, w') => (Auth.Throw e, (loading, w', []))
    end.

End WithJSON.

End LoginScreen.

(** The login screen without field validation (second file of part_002). *)
Module LoginScreenPlain.
Import JS.

(** [interface LoginFormState] *)
Record LoginFormState : Type := mkFormState {
  form_email : string;
  form_password : string;
  form_isLoading : bool
}.

Definition setIsLoading (b : bool) (fs : LoginFormState) : LoginFormState :=
  mkFormState (form_email fs) (form_password fs) b.

Section WithJSON.
Context `{Auth.JSON}.

(** [handleLogin()] *)
Definition handleLogin (fs : LoginFormState) (w : Auth.World)
  : LoginFormState * Auth.World * list Alert :=
  if falsy (trim (form_email fs)) || falsy (trim (form_password fs))
  then (fs, w, [("Error", "Please enter both email and password")])
  else
    let loading := setIsLoading true fs in
    match Auth.login (trim (form_email fs)) (form_password fs) w with
    | (Auth.Ok _, w') => (setIsLoading false loading, w', [])
    | (Auth.Throw e, w') =>
        (setIsLoading false loading, w', [("Login Failed", e)])
    end.

End WithJSON.

End LoginScreenPlain.

(** The logout buttons (Home.tsx, Settings.tsx): what [onPress] of the
    "Logout" button of the confirmation dialog does. *)
Module LogoutButtons.

(** Home.tsx *)
Definition Home_onPress (w : Auth.World) : Auth.World * list Alert :=
  match Auth.logout w with
  | (Auth.Ok _, w') => (w', [])
  | (Auth.Throw _, w') => (w', [("Error", "Failed to logout")])
  end.

(** Settings.tsx; nothing catches an exception of [logout] here. *)
Definition Settings_onPress (w : Auth.World)
  : Auth.outcome unit * (Auth.World * list Alert) :=
  match Auth.logout w with
  | (Auth.Ok result, w') =>
      (Auth.Ok tt,
       (w',
        if negb (Auth.success result) && truthy (Auth.error result)
        then [("Logout Failed", default "" (Auth.error result))]
        else []))
  | (Auth.Throw e, w') => (Auth.Throw e, (w', []))
  end.

End LogoutButtons.

(** The navigation (part_001). *)
Module Navigation.
Import JS Regex.

(** [[a-zA-Z0-9-_]] *)
Definition handleChar (c : ascii) : bool :=
  let n := N_of_ascii c in
  ((97 <=? n) && (n <=? 122) || (65 <=? n) && (n <=? 90)
   || (48 <=? n) && (n <=? 57) || (n =? 45) || (n =? 95))%N.

(** The pattern of the [user] parameter of the Profile path,
    [@[a-zA-Z0-9-_]+]. *)
Definition userPattern : regex := Seq (Lit "@") (Plus (Class handleChar)).

(** [parse.user]: [value.replace(/^@/, "")] *)
Definition parse_user (value : string) : string :=
  match value with
  | String c rest => if Ascii.eqb c "@" then rest else value
  | EmptyString => value
  end.

(** [stringify.user]: the template [@${value}] *)
Definition stringify_user (value : string) : string := String "@" value.

(** [if: () => !useAuth().user || false] of the Login and Signup screens. *)
Definition showsAuthScreens (user : option Auth.User) : bool :=
  negb (match user with Some _ => true | None => false end) || false.

(** [if: () => !!useAuth().user || false] of the HomeTabs screen. *)
Definition showsHomeTabs (user : option Auth.User) : bool :=
  negb (negb (match user with Some _ => true | None => false end)) || false.

End Navigation.

(** * Properties *)

(** ** The derivative matcher decides membership *)
Section RegexFacts.
Import Regex.
Local Open Scope list_scope.

Lemma nullable_lang r : nullable r = true <-> lang r [].
Proof.
  split.
  - induction r; simpl; intros Hn; try discriminate.
    + constructor.
    + apply andb_true_iff in Hn as [H1 H2].
      change (@nil ascii) with (@nil ascii ++ []). constructor; auto.
    + apply orb_true_iff in Hn as [H1 | H2].
      * apply lang_alt_l; auto.
      * apply lang_alt_r; auto.
    + constructor.
  - intros Hl. remember [] as l eqn:El.
    induction Hl; simpl; subst; try discriminate; auto.
    + apply app_eq_nil in El as [-> ->]. rewrite IHHl1, IHHl2; auto.
    + rewrite IHHl; auto.
    + rewrite IHHl; auto using orb_true_r.
Qed.

Lemma lang_star_cons r c l :
  lang (Star r) (c :: l) ->
  exists l1 l2, l = l1 ++ l2 /\ lang r (c :: l1) /\ lang (Star r) l2.
Proof.
  intros Hl. remember (Star r) as r' eqn:Er. remember (c :: l) as w eqn:Ew.
  revert c l Ew.
  induction Hl; intros c' l' Ew; try discriminate.
  injection Er as ->.
  destruct l1 as [| x l1]; simpl in Ew.
  - apply IHHl2; auto.
  - injection Ew as -> <-. exists l1, l2. auto.
Qed.

Lemma deriv_lang r : forall c l, lang (deriv c r) l <-> lang r (c :: l).
Proof.
  induction r; intros c l; simpl.
  - split; intros Hl; inversion Hl.
  - split; intros Hl; inversion Hl.
  - destruct (p c) eqn:Ep; split; intros Hl; inversion Hl; subst.
    + apply (lang_class p c Ep).
    + constructor.
    + congruence.
  - split.
    + destruct (nullable r1) eqn:En; intros Hl.
      * inversion Hl as [| | | ? ? ? Hs | ? ? ? Hd | |]; subst.
        -- inversion Hs as [| | ? ? l1 l2 H1 H2 | | | |]; subst.
           apply IHr1 in H1.
           change (c :: l1 ++ l2) with ((c :: l1) ++ l2). constructor; auto.
        -- apply IHr2 in Hd. apply nullable_lang in En.
           change (c :: l) with ([] ++ c :: l). constructor; auto.
      * inversion Hl as [| | ? ? l1 l2 H1 H2 | | | |]; subst.
        apply IHr1 in H1.
        change (c :: l1 ++ l2) with ((c :: l1) ++ l2). constructor; auto.
    + intros Hl.
      inversion Hl as [| | ? ? l1 l2 H1 H2 Hr Hw | | | |]; subst.
      destruct l1 as [| x l1]; simpl in Hw.
      * subst l2. apply nullable_lang in H1. rewrite H1.
        apply lang_alt_r, IHr2; auto.
      * injection Hw as -> <-.
        assert (lang (Seq (deriv c r1) r2) (l1 ++ l2)) as Hs
          by (constructor; [apply IHr1 |]; auto).
        destruct (nullable r1); [apply lang_alt_l |]; auto.
  - split; intros Hl; inversion Hl; subst.
    + apply lang_alt_l, IHr1; auto.
    + apply lang_alt_r, IHr2; auto.
    + apply lang_alt_l, IHr1; auto.
    + apply lang_alt_r, IHr2; auto.
  - split; intros Hl.
    + inversion Hl as [| | ? ? l1 l2 H1 H2 | | | |]; subst.
      apply IHr in H1.
      change (c :: l1 ++ l2) with ((c :: l1) ++ l2). constructor; auto.
    + apply lang_star_cons in Hl as (l1 & l2 & -> & H1 & H2).
      constructor; [apply IHr |]; auto.
Qed.

Lemma matches_lang l : forall r, matches r l = true <-> lang r l.
Proof.
  induction l as [| c l IH]; intros r; simpl.
  - apply nullable_lang.
  - rewrite IH. apply deriv_lang.
Qed.

Lemma lang_star_class p l :
  lang (Star (Class p)) l <-> Forall (fun c => p c = true) l.
Proof.
  split.
  - intros Hl. remember (Star (Class p)) as r eqn:Er.
    induction Hl; try discriminate; [constructor |].
    injection Er as ->.
    inversion Hl1; subst. constructor; auto.
  - induction 1 as [| c l Hc _ IH]; [constructor |].
    change (c :: l) with ([c] ++ l). constructor; [constructor |]; auto.
Qed.

Lemma lang_plus_class p l :
  lang (Plus (Class p)) l <-> l <> [] /\ Forall (fun c => p c = true) l.
Proof.
  unfold Plus. split.
  - intros Hl. inversion Hl as [| | ? ? l1 l2 H1 H2 | | | |]; subst.
    inversion H1; subst. apply lang_star_class in H2.
    split; [discriminate | constructor; auto].
  - intros [Hne Hall]. destruct l as [| c l]; [congruence |].
    inversion Hall; subst.
    change (c :: l) with ([c] ++ l).
    constructor; [constructor | apply lang_star_class]; auto.
Qed.

Lemma lang_lit c l : lang (Lit c) l <-> l = [c].
Proof.
  unfold Lit. split.
  - intros Hl. inversion Hl as [| ? ? Hp | | | | |]; subst.
    apply Ascii.eqb_eq in Hp. congruence.
  - intros ->. constructor. apply Ascii.eqb_refl.
Qed.

Lemma lang_seq_inv r1 r2 l :
  lang (Seq r1 r2) l <-> exists l1 l2, l = l1 ++ l2 /\ lang r1 l1 /\ lang r2 l2.
Proof.
  split.
  - intros Hl. inversion Hl; subst. eauto.
  - intros (l1 & l2 & -> & H1 & H2). constructor; auto.
Qed.

End RegexFacts.

(** ** The validators *)
Section ValidatorFacts.
Import JS Regex Validator EmailSpec.

Lemma list_ascii_of_string_app (s t : string) :
  list_ascii_of_string (s ++ t) =
  (list_ascii_of_string s ++ list_ascii_of_string t)%list.
Proof. induction s as [| c s IH]; simpl; [| rewrite IH]; reflexivity. Qed.

Lemma string_of_list_ascii_app (l k : list ascii) :
  string_of_list_ascii (l ++ k)%list =
  string_of_list_ascii l ++ string_of_list_ascii k.
Proof. induction l as [| c l IH]; simpl; [| rewrite IH]; reflexivity. Qed.

Lemma notSpaceAt_true c :
  notSpaceAt c = true <-> isWhiteSpace c = false /\ c <> "@"%char.
Proof.
  unfold notSpaceAt. rewrite negb_true_iff, orb_false_iff.
  rewrite <- (Ascii.eqb_neq c "@"). tauto.
Qed.

Lemma plus_notSpaceAt_word (s : string) :
  lang (Plus (Class notSpaceAt)) (list_ascii_of_string s) <-> word s.
Proof.
  rewrite lang_plus_class. unfold word.
  assert (list_ascii_of_string s <> [] <-> s <> "") as ->
    by (destruct s; simpl; split; congruence).
  apply and_iff_compat_l.
  split; intros Hall; eapply Forall_impl; try exact Hall;
    intros c; apply notSpaceAt_true.
Qed.

Lemma test_emailRegex (v : string) :
  test emailRegex v = true <-> emailShape v.
Proof.
  unfold test. rewrite matches_lang. unfold emailRegex, emailShape. split.
  - intros Hl.
    apply lang_seq_inv in Hl as (la & l1 & Ev & Ha & Hl).
    apply lang_seq_inv in Hl as (lat & l2 & -> & Hat & Hl).
    apply lang_seq_inv in Hl as (lb & l3 & -> & Hb & Hl).
    apply lang_seq_inv in Hl as (ldot & lc & -> & Hdot & Hc).
    apply lang_lit in Hat as ->. apply lang_lit in Hdot as ->.
    exists (string_of_list_ascii la), (string_of_list_ascii lb),
      (string_of_list_ascii lc).
    rewrite <- !plus_notSpaceAt_word, !list_ascii_of_string_of_list_ascii.
    repeat split; auto.
    rewrite <- (string_of_list_ascii_of_string v), Ev.
    rewrite !string_of_list_ascii_app. reflexivity.
  - intros (a & b & c & -> & Ha & Hb & Hc).
    rewrite !list_ascii_of_string_app.
    repeat (constructor; try (apply plus_notSpaceAt_word; assumption));
      apply Ascii.eqb_refl.
Qed.

Lemma falsy_true (s : string) : falsy s = true <-> s = "".
Proof. destruct s; simpl; split; congruence. Qed.

Lemma falsy_false (s : string) : falsy s = false <-> s <> "".
Proof. destruct s; simpl; split; congruence. Qed.

(** A string trims to the empty string exactly when all its characters are
    white space. *)
Lemma trim_empty (s : string) :
  trim s = "" <->
  Forall (fun c => isWhiteSpace c = true) (list_ascii_of_string s).
Proof.
  unfold trim. induction s as [| c s IH]; simpl.
  - split; auto.
  - destruct (isWhiteSpace c) eqn:Ec.
    + rewrite IH. split; [constructor; auto | inversion 1; auto].
    + simpl. split.
      * destruct (trimEnd s); rewrite ?Ec; discriminate.
      * inversion 1; congruence.
Qed.

Lemma emailShape_trim (v : string) : emailShape v -> trim v <> "".
Proof.
  intros (a & b & c & -> & [Hne Ha] & _) Ht.
  apply trim_empty in Ht. rewrite list_ascii_of_string_app in Ht.
  destruct a as [| x a]; [congruence |].
  simpl in *. inversion Ht; inversion Ha; subst. intuition congruence.
Qed.

(** C6. For every string [v], [validateField("email", v)] is
    "Email is required" exactly when [v.trim()] is empty; it is
    "Email address is incomplete" exactly when [v.trim()] is not empty and
    [v] is not of the shape word [@] word [.] word, a word being one or more
    characters that are neither white space nor [@]; and it is [undefined]
    exactly when [v] has that shape. *)
Theorem validateField_email (formPassword v : string) :
  (validateField formPassword email v = Some "Email is required"
     <-> trim v = "") /\
  (validateField formPassword email v = Some "Email address is incomplete"
     <-> trim v <> "" /\ ~ emailShape v) /\
  (validateField formPassword email v = None
     <-> trim v <> "" /\ emailShape v).
Proof.
  pose proof (test_emailRegex v) as Ht.
  pose proof (emailShape_trim v) as Hs.
  unfold validateField.
  destruct (falsy (trim v)) eqn:Ef.
  - apply falsy_true in Ef.
    repeat split; try discriminate; try tauto.
  - apply falsy_false in Ef.
    destruct (test emailRegex v) eqn:Et; simpl.
    + assert (emailShape v) by (apply Ht; reflexivity).
      repeat split; try discriminate; try tauto; try congruence.
    + assert (~ emailShape v) by (rewrite <- Ht; discriminate).
      repeat split; try discriminate; try tauto; try congruence.
Qed.

(** The login form validates an email in the same way. *)
Lemma validateFieldLogin_email (formPassword v : string) :
  validateFieldLogin email v = validateField formPassword email v.
Proof. reflexivity. Qed.

(** C7. For every string [v], [validateField("password", v)] is
    "Password is required" exactly when [v] is empty, is
    "Password must be at least 6 characters" exactly when [v] is not empty
    and shorter than 6, and is [undefined] exactly when [v] has length 6 or
    more; "12345" gets an error and "123456" gets none. *)
Theorem validateField_password (formPassword v : string) :
  (validateField formPassword password v = Some "Password is required"
     <-> v = "") /\
  (validateField formPassword password v
     = Some "Password must be at least 6 characters"
     <-> v <> "" /\ String.length v < 6) /\
  (validateField formPassword password v = None <-> 6 <= String.length v) /\
  validateField formPassword password "12345"
     = Some "Password must be at least 6 characters" /\
  validateField formPassword password "123456" = None.
Proof.
  unfold validateField.
  destruct (falsy v) eqn:Ef.
  - apply falsy_true in Ef. subst v. simpl.
    repeat split; try discriminate; try tauto; try lia.
  - apply falsy_false in Ef.
    destruct (String.length v <? 6)%nat eqn:El.
    + apply Nat.ltb_lt in El.
      repeat split; try discriminate; try tauto; try lia; try congruence.
    + apply Nat.ltb_ge in El.
      repeat split; try discriminate; try tauto; try lia; try congruence.
Qed.

Lemma validateFieldLogin_password (formPassword v : string) :
  validateFieldLogin password v = validateField formPassword password v.
Proof. reflexivity. Qed.

End ValidatorFacts.

(** ** The provider *)
Section AuthFacts.
Import JS Regex Auth AuthSpec AuthRuns.
Context `{JSON}.
Local Open Scope list_scope.

Ltac run :=
  cbv beta iota zeta delta
    [login signup logout loadUser mount initial Auth.getStoredUsers
     saveStoredUsers JSON_parse_User JSON_parse_StoredUsers failure
     try_catch try_finally bind ret throw emit rejected
     AsyncStorage_getItem AsyncStorage_setItem AsyncStorage_removeItem
     setUser setIsLoading console_error
     storage user isLoading plan trace fst snd hd tl orb andb negb];
  rewrite <- ?app_assoc; cbn [app].

Lemma calm_hd n p : calm (S n) p = true -> hd false p = false.
Proof. unfold calm. destruct p as [| [] p]; simpl; congruence. Qed.

Lemma calm_tl n p : calm (S n) p = true -> calm n (tl p) = true.
Proof.
  unfold calm. destruct p as [| [] p]; simpl; try congruence.
  destruct n; reflexivity.
Qed.

(** What one call of [logout] does, by whether the removal is rejected. *)
Lemma logout_run (w : World) :
  logout w =
  if hd false (plan w)
  then (Ok (failure "An unexpected error occurred during logout"),
        mkWorld (storage w) None (isLoading w) (tl (plan w))
          (trace w ++ [SetUser None; RemoveItem AUTH_STORAGE_KEY;
                       ConsoleError "Logout error:"]))
  else (Ok (mkAuthResult true None),
        mkWorld (delete AUTH_STORAGE_KEY (storage w)) None (isLoading w)
          (tl (plan w))
          (trace w ++ [SetUser None; RemoveItem AUTH_STORAGE_KEY])).
Proof.
  destruct w as [st u il p tr]. destruct p as [| [] p]; run; reflexivity.
Qed.

Lemma getStoredUsers_run (w : World) :
  exists tr,
    Auth.getStoredUsers w =
    (Ok (visibleAccounts w),
     mkWorld (storage w) (user w) (isLoading w) (tl (plan w))
       (trace w ++ GetItem USERS_STORAGE_KEY :: tr)).
Proof.
  destruct w as [st u il p tr]. unfold visibleAccounts, storedAccounts.
  destruct p as [| [] p]; run; try (eexists; reflexivity);
    destruct (st !! USERS_STORAGE_KEY) as [text |];
    try (eexists; reflexivity);
    destruct (falsy text); try (eexists; reflexivity);
    destruct (parse_StoredUsers text); run; eexists; reflexivity.
Qed.

Lemma saveStoredUsers_run (users : list StoredUser) (w : World) :
  saveStoredUsers users w =
  if hd false (plan w)
  then (Ok tt,
        mkWorld (storage w) (user w) (isLoading w) (tl (plan w))
          (trace w ++ [SetItem USERS_STORAGE_KEY (stringify_StoredUsers users);
                       ConsoleError "Error saving users:"]))
  else (Ok tt,
        mkWorld (<[USERS_STORAGE_KEY := stringify_StoredUsers users]> (storage w))
          (user w) (isLoading w) (tl (plan w))
          (trace w ++ [SetItem USERS_STORAGE_KEY (stringify_StoredUsers users)])).
Proof.
  destruct w as [st u il p tr]. destruct p as [| [] p]; run; reflexivity.
Qed.

Lemma login_missing (email password : string) (w : World) :
  falsy email || falsy password = true ->
  login email password w =
  (Ok (failure "Email and password are required"), w).
Proof.
  intros Hf. unfold login, try_catch. rewrite Hf. reflexivity.
Qed.

Lemma login_unknown (email password : string) (w : World) :
  falsy email || falsy password = false ->
  find (credentialsMatch email password) (visibleAccounts w) = None ->
  exists tr,
    login email password w =
    (Ok (failure "Invalid email or password"),
     mkWorld (storage w) (user w) (isLoading w) (tl (plan w)) (trace w ++ tr)).
Proof.
  intros Hf Hfind. destruct (getStoredUsers_run w) as [tr E].
  unfold login, try_catch, bind. rewrite Hf, E.
  fold (credentialsMatch email password). rewrite Hfind.
  eexists. reflexivity.
Qed.

Lemma login_known (email password : string) (w : World) (a : StoredUser) :
  falsy email || falsy password = false ->
  find (credentialsMatch email password) (visibleAccounts w) = Some a ->
  exists tr,
    login email password w =
    if hd false (tl (plan w))
    then (Ok (failure "An unexpected error occurred during login"),
          mkWorld (storage w) (Some (sessionUser a)) (isLoading w)
            (tl (tl (plan w))) (trace w ++ tr))
    else (Ok (mkAuthResult true None),
          mkWorld (<[AUTH_STORAGE_KEY := stringify_User (sessionUser a)]> (storage w))
            (Some (sessionUser a)) (isLoading w)
            (tl (tl (plan w))) (trace w ++ tr)).
Proof.
  intros Hf Hfind. destruct (getStoredUsers_run w) as [tr E].
  unfold login, try_catch, bind. rewrite Hf, E.
  fold (credentialsMatch email password). rewrite Hfind.
  destruct w as [st u il p tr0]. cbn [plan tl storage user isLoading trace].
  destruct (tl p) as [| [] q]; run; eexists; reflexivity.
Qed.

Lemma signup_invalid (now : Z) (name email password : string) (w : World) :
  passesInputChecks name email password = false ->
  exists msg,
    signup now name email password w = (Ok (failure msg), w).
Proof.
  unfold passesInputChecks, signup, try_catch. intros Hc.
  destruct (falsy name || falsy email || falsy password);
    [eexists; reflexivity |].
  destruct (test emailRegex email); cbn [negb]; [| eexists; reflexivity].
  simpl in Hc. apply negb_false_iff in Hc. rewrite Hc.
  eexists; reflexivity.
Qed.

Lemma passesInputChecks_true (name email password : string) :
  passesInputChecks name email password = true ->
  falsy name || falsy email || falsy password = false /\
  test emailRegex email = true /\
  (String.length password <? 6)%nat = false.
Proof.
  unfold passesInputChecks. rewrite !andb_true_iff, !negb_true_iff. tauto.
Qed.

Lemma signup_taken (now : Z) (name email password : string) (w : World)
    (a : StoredUser) :
  passesInputChecks name email password = true ->
  find (emailTaken email) (visibleAccounts w) = Some a ->
  exists tr,
    signup now name email password w =
    (Ok (failure "User with this email already exists"),
     mkWorld (storage w) (user w) (isLoading w) (tl (plan w)) (trace w ++ tr)).
Proof.
  intros (H1 & H2 & H3)%passesInputChecks_true Hfind.
  destruct (getStoredUsers_run w) as [tr E].
  unfold signup, try_catch, bind. rewrite H1, H2. cbn [negb]. rewrite H3, E.
  fold (emailTaken email). rewrite Hfind.
  eexists. reflexivity.
Qed.

Lemma signup_fresh (now : Z) (name email password : string) (w : World) :
  passesInputChecks name email password = true ->
  find (emailTaken email) (visibleAccounts w) = None ->
  let newUser := mkStoredUser name email password (toString now) in
  let users := visibleAccounts w ++ [newUser] in
  let st :=
    if hd false (tl (plan w)) then storage w
    else <[USERS_STORAGE_KEY := stringify_StoredUsers users]> (storage w) in
  exists tr,
    signup now name email password w =
    if hd false (tl (tl (plan w)))
    then (Ok (failure "An unexpected error occurred during signup"),
          mkWorld st (Some (sessionUser newUser)) (isLoading w)
            (tl (tl (tl (plan w)))) (trace w ++ tr))
    else (Ok (mkAuthResult true None),
          mkWorld
            (<[AUTH_STORAGE_KEY := stringify_User (sessionUser newUser)]> st)
            (Some (sessionUser newUser)) (isLoading w)
            (tl (tl (tl (plan w)))) (trace w ++ tr)).
Proof.
  intros (H1 & H2 & H3)%passesInputChecks_true Hfind newUser users st.
  destruct (getStoredUsers_run w) as [tr E].
  unfold signup, try_catch, bind. rewrite H1, H2. cbn [negb]. rewrite H3, E.
  fold (emailTaken email). rewrite Hfind, saveStoredUsers_run.
  subst st users newUser.
  destruct w as [st0 u il p tr0]. cbn [plan tl storage user isLoading trace].
  destruct (tl p) as [| [] [| [] q]]; run; eexists; reflexivity.
Qed.

Lemma loadUser_run (w : World) :
  loadUser w =
  (Ok tt,
   mkWorld (storage w) (restoredUser w) false (tl (plan w))
     (trace w ++ GetItem AUTH_STORAGE_KEY :: restoreEvents w
        ++ [SetIsLoading false])).
Proof.
  destruct w as [st u il p tr]. unfold restoredUser, restoreEvents.
  cbn [plan storage user isLoading trace hd tl].
  destruct p as [| [] p]; cbn [hd tl]; try (run; reflexivity);
    (destruct (st !! AUTH_STORAGE_KEY) as [text |] eqn:Eg;
     [destruct (falsy text) eqn:Ef;
      [| destruct (parse_User text) eqn:Ep] |]);
    run; rewrite Eg, ?Ef, ?Ep; run; reflexivity.
Qed.

(** *** logout *)

(** C9. [logout] calls [setUser(null)] before it asks AsyncStorage to remove
    the session slot, so after every call, also one whose removal is
    rejected and which answers [success: false], the user in memory is
    [null]; a failed [logout] can thus have changed the state. *)
Theorem logout_clears_user_first (w : World) :
  user (snd (logout w)) = None /\
  (exists tr,
     trace (snd (logout w)) =
     trace w ++ SetUser None :: RemoveItem AUTH_STORAGE_KEY :: tr) /\
  (hd false (plan w) = true ->
     fst (logout w) = Ok (failure "An unexpected error occurred during logout")
     /\ storage (snd (logout w)) = storage w) /\
  (exists (w0 : World) (r : AuthResult),
     fst (logout w0) = Ok r /\ success r = false /\
     user (snd (logout w0)) <> user w0).
Proof.
  rewrite logout_run.
  split; [| split; [| split]].
  - destruct (hd false (plan w)); reflexivity.
  - destruct (hd false (plan w)); eexists; reflexivity.
  - intros ->. split; reflexivity.
  - exists (mkWorld ∅ (Some (mkUser "n" "e" "i")) false [true] []).
    eexists. rewrite logout_run. cbn. repeat split; discriminate.
Qed.

(** C8. Two calls of [logout] in a row, neither removal being rejected
    ([calm 2]), both answer [success: true]; after the second the user in
    memory is [null] and the session slot is absent from storage. *)
Theorem logout_twice (w : World) :
  calm 2 (plan w) = true ->
  exists w1 w2,
    logout w = (Ok (mkAuthResult true None), w1) /\
    logout w1 = (Ok (mkAuthResult true None), w2) /\
    user w2 = None /\
    storage w2 !! AUTH_STORAGE_KEY = None.
Proof.
  intros Hq. rewrite logout_run, (calm_hd _ _ Hq).
  do 2 eexists. split; [reflexivity |].
  rewrite logout_run. cbn [plan].
  rewrite (calm_hd _ _ (calm_tl _ _ Hq)).
  repeat split. cbn [storage]. apply lookup_delete_eq.
Qed.

(** *** login *)

Lemma credentialsMatch_true (email password : string) (a : StoredUser) :
  credentialsMatch email password a = true <->
  sameEmail email a /\ StoredUser_password a = password.
Proof.
  unfold credentialsMatch, sameEmail.
  rewrite andb_true_iff, !String.eqb_eq. reflexivity.
Qed.

Lemma falsy_or (s t : string) :
  falsy s || falsy t = true <-> s = "" \/ t = "".
Proof. destruct s, t; simpl; split; intros; try tauto; try discriminate;
  intuition discriminate. Qed.

Lemma falsy_nor (s t : string) :
  s <> "" -> t <> "" -> falsy s || falsy t = false.
Proof. destruct s, t; simpl; congruence. Qed.

(** C10. [login] leaves the stored account collection as it is: whatever
    the call is given and however it ends, the value under [@auth_users],
    all keys other than [@auth_user], and the loading flag are the same
    after the call as before. *)
Theorem login_keeps_accounts (email password : string) (w : World) :
  let w' := snd (login email password w) in
  storage w' !! USERS_STORAGE_KEY = storage w !! USERS_STORAGE_KEY /\
  storedAccounts (storage w') = storedAccounts (storage w) /\
  (forall key, key <> AUTH_STORAGE_KEY -> storage w' !! key = storage w !! key) /\
  isLoading w' = isLoading w.
Proof.
  assert (forall key, key <> AUTH_STORAGE_KEY ->
            storage (snd (login email password w)) !! key = storage w !! key
            ) as Hkeys.
  { intros key Hkey.
    destruct (falsy email || falsy password) eqn:Hf.
    - rewrite login_missing by assumption. reflexivity.
    - destruct (find (credentialsMatch email password) (visibleAccounts w))
        as [a |] eqn:Hfind.
      + destruct (login_known _ _ _ _ Hf Hfind) as [tr ->].
        destruct (hd false (tl (plan w))); cbn [snd storage]; [reflexivity |].
        apply lookup_insert_ne. congruence.
      + destruct (login_unknown _ _ _ Hf Hfind) as [tr ->]. reflexivity. }
  cbv zeta. unfold storedAccounts.
  rewrite (Hkeys USERS_STORAGE_KEY) by discriminate.
  repeat split; auto.
  destruct (falsy email || falsy password) eqn:Hf.
  - rewrite login_missing by assumption. reflexivity.
  - destruct (find (credentialsMatch email password) (visibleAccounts w))
      as [a |] eqn:Hfind.
    + destruct (login_known _ _ _ _ Hf Hfind) as [tr ->].
      destruct (hd false (tl (plan w))); reflexivity.
    + destruct (login_unknown _ _ _ Hf Hfind) as [tr ->]. reflexivity.
Qed.

Lemma visibleAccounts_In (w : World) (a : StoredUser) :
  In a (visibleAccounts w) -> In a (storedAccounts (storage w)).
Proof. unfold visibleAccounts. destruct (hd false (plan w)); simpl; tauto. Qed.

Lemma visibleAccounts_read (w : World) :
  hd false (plan w) = false -> visibleAccounts w = storedAccounts (storage w).
Proof. unfold visibleAccounts. intros ->. reflexivity. Qed.

(** C3. For every call of [login]: with an empty email or password it
    answers [success: false] with an error; otherwise, when no stored
    account has the email (compared without case) and exactly the password,
    it answers "Invalid email or password" and leaves the user in memory and
    the storage as they were; and when there is such an account (and no
    AsyncStorage call is rejected) it answers [success: true], and the user
    in memory and the persisted session slot are such an account without
    its password ([calm 2]: the two AsyncStorage calls of the [login] are
    not rejected). *)
Theorem login_spec (email password : string) (w : World) :
  (email = "" \/ password = "" ->
     exists msg, login email password w = (Ok (failure msg), w)) /\
  (email <> "" -> password <> "" ->
     (forall a, In a (storedAccounts (storage w)) ->
                ~ (sameEmail email a /\ StoredUser_password a = password)) ->
     fst (login email password w) = Ok (failure "Invalid email or password") /\
     user (snd (login email password w)) = user w /\
     storage (snd (login email password w)) = storage w) /\
  (email <> "" -> password <> "" ->
     (exists a, In a (storedAccounts (storage w)) /\
                sameEmail email a /\ StoredUser_password a = password) ->
     calm 2 (plan w) = true ->
     exists a,
       In a (storedAccounts (storage w)) /\
       sameEmail email a /\ StoredUser_password a = password /\
       fst (login email password w) = Ok (mkAuthResult true None) /\
       user (snd (login email password w)) = Some (sessionUser a) /\
       storage (snd (login email password w)) !! AUTH_STORAGE_KEY
         = Some (stringify_User (sessionUser a))).
Proof.
  split; [| split].
  - intros He%falsy_or. eexists. apply login_missing, He.
  - intros He Hp Hnone. pose proof (falsy_nor _ _ He Hp) as Hf.
    destruct (find (credentialsMatch email password) (visibleAccounts w))
      as [a |] eqn:Hfind.
    + apply find_some in Hfind as [Hin Hm].
      apply visibleAccounts_In in Hin. apply credentialsMatch_true in Hm.
      destruct (Hnone a Hin Hm).
    + destruct (login_unknown _ _ _ Hf Hfind) as [tr ->]. repeat split.
  - intros He Hp (a0 & Hin0 & Hm0) Hq. pose proof (falsy_nor _ _ He Hp) as Hf.
    pose proof (calm_hd _ _ Hq) as H1.
    pose proof (calm_hd _ _ (calm_tl _ _ Hq)) as H2.
    destruct (find (credentialsMatch email password) (visibleAccounts w))
      as [a |] eqn:Hfind.
    + destruct (login_known _ _ _ _ Hf Hfind) as [tr ->]. rewrite H2.
      apply find_some in Hfind as [Hin Hm].
      apply visibleAccounts_In in Hin. apply credentialsMatch_true in Hm.
      exists a. cbn [fst snd user storage].
      repeat split; try tauto. apply lookup_insert_eq.
    + rewrite visibleAccounts_read in Hfind by assumption.
      eapply find_none in Hfind; [| exact Hin0].
      apply credentialsMatch_true in Hm0. congruence.
Qed.

(** *** Startup *)

(** C5. When the provider is mounted the session slot is read exactly once,
    nothing is written, and no exception leaves [loadUser]: if the read is
    not rejected and the slot holds a printed Session User, that user is the
    user in memory afterwards (no [login] is involved); if the slot is
    absent, or the read is rejected, or the text does not parse, the user in
    memory stays [null]; in every case [isLoading] ends [false] and
    [setIsLoading(false)] is called exactly once. *)
Theorem startup_restores_session (st : gmap string string) (p : list bool) :
  let r := mount (initial st p) in
  fst r = Ok tt /\
  isLoading (snd r) = false /\
  count isLoad (trace (snd r)) = 1 /\
  count isReady (trace (snd r)) = 1 /\
  count isWrite (trace (snd r)) = 0 /\
  storage (snd r) = st /\
  (forall u, hd false p = false ->
             st !! AUTH_STORAGE_KEY = Some (stringify_User u) ->
             user (snd r) = Some u) /\
  (st !! AUTH_STORAGE_KEY = None \/ hd false p = true \/
   (exists text, st !! AUTH_STORAGE_KEY = Some text /\ parse_User text = None) ->
   user (snd r) = None).
Proof.
  cbv zeta. unfold mount. rewrite loadUser_run.
  unfold initial, restoredUser, restoreEvents.
  cbn [fst snd isLoading trace storage plan user app].
  repeat split.
  - destruct (hd false p); [reflexivity |].
    destruct (st !! AUTH_STORAGE_KEY) as [text |]; [| reflexivity].
    destruct (falsy text); [reflexivity |].
    destruct (parse_User text); reflexivity.
  - destruct (hd false p); [reflexivity |].
    destruct (st !! AUTH_STORAGE_KEY) as [text |]; [| reflexivity].
    destruct (falsy text); [reflexivity |].
    destruct (parse_User text); reflexivity.
  - destruct (hd false p); [reflexivity |].
    destruct (st !! AUTH_STORAGE_KEY) as [text |]; [| reflexivity].
    destruct (falsy text); [reflexivity |].
    destruct (parse_User text); reflexivity.
  - intros u -> ->.
    rewrite stringify_User_truthy, parse_stringify_User. reflexivity.
  - intros [-> | [-> | (text & -> & ->)]]; try reflexivity.
    + destruct (hd false p); reflexivity.
    + destruct (hd false p), (falsy text); reflexivity.
Qed.

(** *** signup *)

Lemma storedAccounts_insert_users (l : list StoredUser) (st : gmap string string) :
  storedAccounts (<[USERS_STORAGE_KEY := stringify_StoredUsers l]> st) = l.
Proof.
  unfold storedAccounts.
  rewrite lookup_insert_eq, stringify_StoredUsers_truthy,
    parse_stringify_StoredUsers.
  reflexivity.
Qed.

Lemma storedAccounts_insert_auth (v : string) (st : gmap string string) :
  storedAccounts (<[AUTH_STORAGE_KEY := v]> st) = storedAccounts st.
Proof.
  unfold storedAccounts. rewrite lookup_insert_ne by discriminate. reflexivity.
Qed.

Lemma storedAccounts_delete_auth (st : gmap string string) :
  storedAccounts (delete AUTH_STORAGE_KEY st) = storedAccounts st.
Proof.
  unfold storedAccounts. rewrite lookup_delete_ne by discriminate. reflexivity.
Qed.

(** What [signup] does, for every input that passes the checks and meets
    no account with its email, when the write of the account collection is
    rejected: [saveStoredUsers] swallows the fault, the collection in
    storage stays as it was and the call goes on to set the user in memory
    and to write the session slot; the call answers [success: true] when
    that second write is accepted, and [success: false] only when the
    session write is rejected too. *)
Theorem signup_save_fault (now : Z) (name email password : string) (w : World) :
  passesInputChecks name email password = true ->
  find (emailTaken email) (visibleAccounts w) = None ->
  hd false (tl (plan w)) = true ->
  let newUser := sessionUser (mkStoredUser name email password (toString now)) in
  exists (r : AuthResult) (w' : World),
    signup now name email password w = (Ok r, w') /\
    storage w' !! USERS_STORAGE_KEY = storage w !! USERS_STORAGE_KEY /\
    user w' = Some newUser /\
    (hd false (tl (tl (plan w))) = false ->
       r = mkAuthResult true None /\
       storage w' = <[AUTH_STORAGE_KEY := stringify_User newUser]> (storage w)) /\
    (hd false (tl (tl (plan w))) = true ->
       r = failure "An unexpected error occurred during signup" /\
       storage w' = storage w).
Proof.
  intros Hc Hfind Hsave newUser.
  destruct (signup_fresh now _ _ _ w Hc Hfind) as [tr ->].
  rewrite Hsave.
  destruct (hd false (tl (tl (plan w)))); do 2 eexists;
    (split; [reflexivity |]); cbn [storage user];
    repeat split; try discriminate; try reflexivity.
  apply lookup_insert_ne. discriminate.
Qed.

Lemma emailTaken_true (email : string) (a : StoredUser) :
  emailTaken email a = true <-> sameEmail email a.
Proof. unfold emailTaken, sameEmail. apply String.eqb_eq. Qed.

Lemma uniqueEmails_snoc (l : list StoredUser) (a : StoredUser) :
  uniqueEmails l ->
  find (emailTaken (StoredUser_email a)) l = None ->
  uniqueEmails (l ++ [a]).
Proof.
  unfold uniqueEmails. intros Hl Hfind.
  rewrite map_app. cbn [map].
  apply NoDup_app. repeat split; auto.
  - intros x Hx [<- | []]%list_elem_of_In.
    apply list_elem_of_In, in_map_iff in Hx as (b & Hb & Hin).
    eapply find_none in Hfind; [| exact Hin].
    apply (proj2 (emailTaken_true _ _)) in Hb. congruence.
  - apply NoDup_singleton.
Qed.

Lemma uniqueEmails_visible (w : World) :
  uniqueEmails (storedAccounts (storage w)) -> uniqueEmails (visibleAccounts w).
Proof.
  unfold visibleAccounts. destruct (hd false (plan w)); auto.
  intros _. constructor.
Qed.

(** One [signup], whatever it is given, however it ends and whichever of
    its AsyncStorage calls are rejected, keeps the emails of the stored
    accounts distinct. *)
Lemma signup_keeps_unique (now : Z) (name email password : string) (w : World) :
  uniqueEmails (storedAccounts (storage w)) ->
  uniqueEmails (storedAccounts (storage (snd (signup now name email password w)))).
Proof.
  intros Hu.
  destruct (passesInputChecks name email password) eqn:Hc.
  - destruct (find (emailTaken email) (visibleAccounts w)) as [a |] eqn:Hfind.
    + destruct (signup_taken now _ _ _ w a Hc Hfind) as [tr ->]. exact Hu.
    + destruct (signup_fresh now _ _ _ w Hc Hfind) as [tr ->].
      assert (uniqueEmails
                (storedAccounts
                   (if hd false (tl (plan w)) then storage w
                    else <[USERS_STORAGE_KEY :=
                             stringify_StoredUsers
                               (visibleAccounts w ++
                                [mkStoredUser name email password (toString now)])]>
                           (storage w)))) as Hst.
      { destruct (hd false (tl (plan w))); [exact Hu |].
        rewrite storedAccounts_insert_users.
        apply uniqueEmails_snoc; [apply uniqueEmails_visible, Hu | exact Hfind]. }
      destruct (hd false (tl (tl (plan w)))); cbn [snd storage]; [exact Hst |].
      rewrite storedAccounts_insert_auth. exact Hst.
  - destruct (signup_invalid now _ _ _ w Hc) as [msg ->]. exact Hu.
Qed.

Lemma signups_keep_unique (calls : list SignupCall) :
  forall w : World,
    uniqueEmails (storedAccounts (storage w)) ->
    uniqueEmails (storedAccounts (storage (signups calls w))).
Proof.
  induction calls as [| c calls IH]; intros w Hu; [exact Hu |].
  apply IH, signup_keeps_unique, Hu.
Qed.

Lemma find_app_last {A} (f : A -> bool) (l : list A) (a : A) :
  f a = true -> exists b, find f (l ++ [a]) = Some b.
Proof.
  intros Ha. destruct (find f (l ++ [a])) as [b |] eqn:Hfind; [eauto |].
  eapply find_none in Hfind; [| apply in_or_app; right; left; reflexivity].
  congruence.
Qed.

(** After a [signup] that answered [success: true], a [signup] whose email
    equals the first one without case fails and leaves the storage as it
    is, none of the four AsyncStorage calls of the two being rejected. *)
Lemma signup_duplicate (now1 now2 : Z) (name1 email1 pw1 name2 email2 pw2 : string)
    (w : World) :
  toLowerCase email1 = toLowerCase email2 ->
  calm 4 (plan w) = true ->
  fst (signup now1 name1 email1 pw1 w) = Ok (mkAuthResult true None) ->
  let w1 := snd (signup now1 name1 email1 pw1 w) in
  (exists r, fst (signup now2 name2 email2 pw2 w1) = Ok r /\ success r = false) /\
  storage (snd (signup now2 name2 email2 pw2 w1)) = storage w1 /\
  (passesInputChecks name2 email2 pw2 = true ->
   fst (signup now2 name2 email2 pw2 w1)
   = Ok (failure "User with this email already exists")).
Proof.
  intros Hlow Hq Hok.
  pose proof (calm_hd _ _ Hq) as Q1.
  pose proof (calm_tl _ _ Hq) as Hq1. pose proof (calm_hd _ _ Hq1) as Q2.
  pose proof (calm_tl _ _ Hq1) as Hq2. pose proof (calm_hd _ _ Hq2) as Q3.
  pose proof (calm_tl _ _ Hq2) as Hq3. pose proof (calm_hd _ _ Hq3) as Q4.
  destruct (passesInputChecks name1 email1 pw1) eqn:Hc1;
    [| destruct (signup_invalid now1 _ _ _ w Hc1) as [msg E];
       rewrite E in Hok; discriminate].
  destruct (find (emailTaken email1) (visibleAccounts w)) as [a |] eqn:Hfind;
    [destruct (signup_taken now1 _ _ _ w a Hc1 Hfind) as [tr E];
     rewrite E in Hok; discriminate |].
  destruct (signup_fresh now1 _ _ _ w Hc1 Hfind) as [tr E].
  rewrite Q2, Q3 in E. rewrite E. clear E Hok. cbv zeta. cbn [snd].
  set (new := mkStoredUser name1 email1 pw1 (toString now1)).
  set (w1 := mkWorld _ _ _ _ _).
  assert (exists b, find (emailTaken email2) (visibleAccounts w1) = Some b)
    as [b Hb].
  { unfold visibleAccounts. subst w1. cbn [plan storage]. rewrite Q4.
    rewrite storedAccounts_insert_auth, storedAccounts_insert_users.
    apply find_app_last. apply emailTaken_true. exact Hlow. }
  destruct (passesInputChecks name2 email2 pw2) eqn:Hc2.
  - destruct (signup_taken now2 _ _ _ w1 b Hc2 Hb) as [tr2 ->].
    cbn [fst snd storage]. repeat split. eexists; split; reflexivity.
  - destruct (signup_invalid now2 _ _ _ w1 Hc2) as [msg ->].
    cbn [fst snd]. repeat split; [| discriminate].
    eexists; split; reflexivity.
Qed.

(** C2. Calls of [signup] made one after the other on a store without an
    account collection never leave two accounts whose emails are equal
    without case, whichever calls are rejected by the storage; and after a
    [signup] with "a@b.com" that succeeded, a [signup] with "A@B.com" fails,
    with "User with this email already exists" when its other inputs pass
    the checks, and stores nothing ([calm 4]: none of the AsyncStorage calls
    of the two is rejected). *)
Theorem signup_unique_emails :
  (forall (calls : list SignupCall) (w : World),
     storage w !! USERS_STORAGE_KEY = None ->
     uniqueEmails (storedAccounts (storage (signups calls w)))) /\
  (forall (now1 now2 : Z) (name1 pw1 name2 pw2 : string) (w : World),
     calm 4 (plan w) = true ->
     fst (signup now1 name1 "a@b.com" pw1 w) = Ok (mkAuthResult true None) ->
     let w1 := snd (signup now1 name1 "a@b.com" pw1 w) in
     (exists r, fst (signup now2 name2 "A@B.com" pw2 w1) = Ok r
                /\ success r = false) /\
     storage (snd (signup now2 name2 "A@B.com" pw2 w1)) = storage w1 /\
     (name2 <> "" -> 6 <= String.length pw2 ->
      fst (signup now2 name2 "A@B.com" pw2 w1)
      = Ok (failure "User with this email already exists"))).
Proof.
  split.
  - intros calls w Hempty. apply signups_keep_unique.
    unfold storedAccounts. rewrite Hempty. constructor.
  - intros now1 now2 name1 pw1 name2 pw2 w Hq Hok.
    destruct (signup_duplicate now1 now2 name1 "a@b.com" pw1 name2 "A@B.com"
                pw2 w eq_refl Hq Hok) as (H1 & H2 & H3).
    repeat split; auto.
    intros Hn Hp. apply H3. unfold passesInputChecks.
    destruct name2; [congruence |]. destruct pw2; [simpl in Hp; lia |].
    apply Nat.ltb_ge in Hp. rewrite Hp. reflexivity.
Qed.

(** *** Round trip *)

(** C4. On a store without an account collection and with none of the six
    AsyncStorage calls rejected, [signup] of John Doe succeeds and leaves him as the user
    in memory; [logout] then succeeds and clears the user; and [login] with
    the same email and password succeeds and leaves a user with the same
    id, name and email. *)
Theorem signup_logout_login (now : Z) (w : World) :
  storage w !! USERS_STORAGE_KEY = None ->
  calm 6 (plan w) = true ->
  let john := mkUser "John Doe" "john@example.com" (toString now) in
  exists w1 w2 w3 : World,
    signup now "John Doe" "john@example.com" "password123" w
      = (Ok (mkAuthResult true None), w1) /\
    user w1 = Some john /\
    storage w1 !! AUTH_STORAGE_KEY = Some (stringify_User john) /\
    logout w1 = (Ok (mkAuthResult true None), w2) /\
    user w2 = None /\
    login "john@example.com" "password123" w2
      = (Ok (mkAuthResult true None), w3) /\
    user w3 = Some john /\
    storage w3 !! AUTH_STORAGE_KEY = Some (stringify_User john).
Proof.
  intros Hempty Hq john.
  pose proof (calm_hd _ _ Hq) as Q1.
  pose proof (calm_tl _ _ Hq) as Hq1. pose proof (calm_hd _ _ Hq1) as Q2.
  pose proof (calm_tl _ _ Hq1) as Hq2. pose proof (calm_hd _ _ Hq2) as Q3.
  pose proof (calm_tl _ _ Hq2) as Hq3. pose proof (calm_hd _ _ Hq3) as Q4.
  pose proof (calm_tl _ _ Hq3) as Hq4. pose proof (calm_hd _ _ Hq4) as Q5.
  pose proof (calm_tl _ _ Hq4) as Hq5. pose proof (calm_hd _ _ Hq5) as Q6.
  assert (visibleAccounts w = []) as Hvis.
  { unfold visibleAccounts, storedAccounts. rewrite Q1, Hempty. reflexivity. }
  destruct (signup_fresh now "John Doe" "john@example.com" "password123" w)
    as [tr1 E1]; [reflexivity | rewrite Hvis; reflexivity |].
  rewrite Hvis, Q2, Q3 in E1. cbn [app] in E1.
  set (new := mkStoredUser "John Doe" "john@example.com" "password123"
                (toString now)) in *.
  match type of E1 with _ = (_, ?x) => set (w1 := x) in * end.
  pose proof (logout_run w1) as E2.
  subst w1. cbn [plan storage isLoading trace] in E2. rewrite Q4 in E2.
  match type of E2 with _ = (_, ?x) => set (w2 := x) in * end.
  assert (visibleAccounts w2 = [new]) as Hvis2.
  { unfold visibleAccounts. subst w2. cbn [plan storage]. rewrite Q5.
    rewrite storedAccounts_delete_auth, storedAccounts_insert_auth.
    apply storedAccounts_insert_users. }
  destruct (login_known "john@example.com" "password123" w2 new)
    as [tr3 E3]; [reflexivity | rewrite Hvis2; reflexivity |].
  subst w2. cbn [plan storage isLoading trace tl] in E3. rewrite Q6 in E3.
  do 3 eexists.
  split; [exact E1 |]. split; [reflexivity |].
  split; [apply lookup_insert_eq |].
  split; [exact E2 |]. split; [reflexivity |].
  split; [exact E3 |].
  split; [reflexivity | apply lookup_insert_eq].
Qed.

(** *** Further properties of the provider *)

Lemma resultShape_ok : resultShape (mkAuthResult true None).
Proof. left. split; reflexivity. Qed.

Lemma resultShape_failure (c : ascii) (msg : string) :
  resultShape (failure (String c msg)).
Proof. right. split; [reflexivity |]. eexists. split; [reflexivity | discriminate]. Qed.

(** The provider keeps its result-object contract: [login], [signup] and
    [logout] never throw, whatever they are given and whichever AsyncStorage
    calls are rejected, and the result they return has an [error] exactly
    when [success] is false; [loadUser] never throws either. *)
Theorem provider_never_throws (now : Z) (name email password : string) (w : World) :
  (exists r w', login email password w = (Ok r, w') /\ resultShape r) /\
  (exists r w', signup now name email password w = (Ok r, w') /\ resultShape r) /\
  (exists r w', logout w = (Ok r, w') /\ resultShape r) /\
  (exists w', loadUser w = (Ok tt, w')).
Proof.
  split; [| split; [| split]].
  - destruct (falsy email || falsy password) eqn:Hf.
    + rewrite login_missing by assumption.
      do 2 eexists. split; [reflexivity | apply resultShape_failure].
    + destruct (find (credentialsMatch email password) (visibleAccounts w))
        as [a |] eqn:Hfind.
      * destruct (login_known _ _ _ _ Hf Hfind) as [tr ->].
        destruct (hd false (tl (plan w))); do 2 eexists;
          (split; [reflexivity |]);
          [apply resultShape_failure | apply resultShape_ok].
      * destruct (login_unknown _ _ _ Hf Hfind) as [tr ->].
        do 2 eexists. split; [reflexivity | apply resultShape_failure].
  - unfold signup at 1.
    destruct (passesInputChecks name email password) eqn:Hc.
    + destruct (find (emailTaken email) (visibleAccounts w)) as [a |] eqn:Hfind.
      * destruct (signup_taken now _ _ _ w a Hc Hfind) as [tr E].
        fold (signup now name email password). rewrite E.
        do 2 eexists. split; [reflexivity | apply resultShape_failure].
      * destruct (signup_fresh now _ _ _ w Hc Hfind) as [tr E].
        fold (signup now name email password). rewrite E.
        destruct (hd false (tl (tl (plan w)))); do 2 eexists;
          (split; [reflexivity |]);
          [apply resultShape_failure | apply resultShape_ok].
    + fold (signup now name email password).
      unfold passesInputChecks, signup, try_catch in *.
      destruct (falsy name || falsy email || falsy password);
        [do 2 eexists; split; [reflexivity | apply resultShape_failure] |].
      destruct (test emailRegex email); cbn [negb];
        [| do 2 eexists; split; [reflexivity | apply resultShape_failure]].
      simpl in Hc. apply negb_false_iff in Hc. rewrite Hc.
      do 2 eexists; split; [reflexivity | apply resultShape_failure].
  - rewrite logout_run. destruct (hd false (plan w)); do 2 eexists;
      (split; [reflexivity |]);
      [apply resultShape_failure | apply resultShape_ok].
  - rewrite loadUser_run. eexists. reflexivity.
Qed.

Lemma emailRegex_shape (email : string) :
  test emailRegex email = true <-> EmailSpec.emailShape email.
Proof. apply test_emailRegex. Qed.

(** The input checks of [signup] are made in a fixed order, each with its
    own message, before anything else happens: a call that fails one of
    them makes no AsyncStorage call and changes nothing. *)
Theorem signup_input_errors (now : Z) (name email password : string) (w : World) :
  (name = "" \/ email = "" \/ password = "" ->
   signup now name email password w
   = (Ok (failure "Name, email, and password are required"), w)) /\
  (name <> "" -> email <> "" -> password <> "" ->
   ~ EmailSpec.emailShape email ->
   signup now name email password w
   = (Ok (failure "Invalid email format"), w)) /\
  (name <> "" -> password <> "" -> EmailSpec.emailShape email ->
   String.length password < 6 ->
   signup now name email password w
   = (Ok (failure "Password must be at least 6 characters"), w)).
Proof.
  split; [| split].
  - intros Hempty. unfold signup, try_catch.
    assert (falsy name || falsy email || falsy password = true) as ->
      by (destruct name, email, password; simpl; intuition congruence).
    reflexivity.
  - intros Hn He Hp Hshape. unfold signup, try_catch.
    assert (falsy name || falsy email || falsy password = false) as ->
      by (destruct name, email, password; simpl; congruence).
    rewrite <- emailRegex_shape in Hshape.
    apply not_true_is_false in Hshape. rewrite Hshape. reflexivity.
  - intros Hn Hp Hshape Hlen. unfold signup, try_catch.
    assert (email <> "") as He.
    { intros ->. destruct Hshape as (a & b & c & E & [Ha _] & _).
      destruct a; [congruence | discriminate]. }
    assert (falsy name || falsy email || falsy password = false) as ->
      by (destruct name, email, password; simpl; congruence).
    apply emailRegex_shape in Hshape. rewrite Hshape. cbn [negb].
    apply Nat.ltb_lt in Hlen. rewrite Hlen. reflexivity.
Qed.

Lemma find_taken_none (email : string) (l : list StoredUser) :
  find (emailTaken email) l = None <->
  (forall a, In a l -> ~ sameEmail email a).
Proof.
  split.
  - intros Hfind a Hin Hs. eapply find_none in Hfind; [| exact Hin].
    apply emailTaken_true in Hs. congruence.
  - intros Hnone. destruct (find (emailTaken email) l) as [a |] eqn:Hfind;
      [| reflexivity].
    apply find_some in Hfind as [Hin Ht].
    apply emailTaken_true in Ht. destruct (Hnone a Hin Ht).
Qed.

(** A [signup] that passes the input checks, meets no stored account with
    its email (compared without case) and has none of its three
    AsyncStorage calls rejected succeeds: the new account, with the email
    as it was typed, the password as it was typed and the clock reading as
    id, is appended to the stored collection; its Session User is the user
    in memory and is persisted; no other key of the storage changes. *)
Theorem signup_success (now : Z) (name email password : string) (w : World) :
  passesInputChecks name email password = true ->
  (forall a, In a (storedAccounts (storage w)) -> ~ sameEmail email a) ->
  calm 3 (plan w) = true ->
  let account := mkStoredUser name email password (toString now) in
  exists w',
    signup now name email password w = (Ok (mkAuthResult true None), w') /\
    storedAccounts (storage w') = storedAccounts (storage w) ++ [account] /\
    user w' = Some (mkUser name email (toString now)) /\
    storage w' !! AUTH_STORAGE_KEY
      = Some (stringify_User (mkUser name email (toString now))) /\
    (forall key, key <> AUTH_STORAGE_KEY -> key <> USERS_STORAGE_KEY ->
                 storage w' !! key = storage w !! key).
Proof.
  intros Hc Hnone Hq account.
  pose proof (calm_hd _ _ Hq) as Q1.
  pose proof (calm_tl _ _ Hq) as Hq1. pose proof (calm_hd _ _ Hq1) as Q2.
  pose proof (calm_tl _ _ Hq1) as Hq2. pose proof (calm_hd _ _ Hq2) as Q3.
  apply find_taken_none in Hnone.
  rewrite <- (visibleAccounts_read w Q1) in Hnone.
  destruct (signup_fresh now _ _ _ w Hc Hnone) as [tr ->].
  rewrite Q2, Q3, (visibleAccounts_read w Q1).
  eexists. split; [reflexivity |]. cbn [storage user].
  rewrite storedAccounts_insert_auth, storedAccounts_insert_users.
  repeat split.
  - apply lookup_insert_eq.
  - intros key Ha Hu. rewrite !lookup_insert_ne by congruence. reflexivity.
Qed.

(** A [signup] whose email is, without case, the email of a stored account
    fails with "User with this email already exists" and changes neither
    the storage nor the user in memory (the read of the collection being
    accepted and the other inputs passing the checks). *)
Theorem signup_rejects_taken_email (now : Z) (name email password : string)
    (w : World) :
  passesInputChecks name email password = true ->
  hd false (plan w) = false ->
  (exists a, In a (storedAccounts (storage w)) /\ sameEmail email a) ->
  fst (signup now name email password w)
    = Ok (failure "User with this email already exists") /\
  storage (snd (signup now name email password w)) = storage w /\
  user (snd (signup now name email password w)) = user w.
Proof.
  intros Hc Q1 (a & Hin & Hs).
  destruct (find (emailTaken email) (visibleAccounts w)) as [b |] eqn:Hfind.
  - destruct (signup_taken now _ _ _ w b Hc Hfind) as [tr ->]. repeat split.
  - rewrite (visibleAccounts_read w Q1) in Hfind.
    destruct (proj1 (find_taken_none _ _) Hfind a Hin Hs).
Qed.

(** When the read of the collection is rejected, [getStoredUsers] answers
    an empty collection; a [signup] that passes the input checks then skips
    nothing but writes: if its write of the collection is accepted, the
    stored collection afterwards holds the new account only, whatever was
    stored before. *)
Theorem signup_read_fault_overwrites (now : Z) (name email password : string)
    (w : World) :
  passesInputChecks name email password = true ->
  hd false (plan w) = true ->
  hd false (tl (plan w)) = false ->
  storedAccounts (storage (snd (signup now name email password w)))
  = [mkStoredUser name email password (toString now)] /\
  user (snd (signup now name email password w))
  = Some (mkUser name email (toString now)).
Proof.
  intros Hc Q1 Q2.
  assert (visibleAccounts w = []) as Hvis
    by (unfold visibleAccounts; rewrite Q1; reflexivity).
  destruct (signup_fresh now _ _ _ w Hc) as [tr ->];
    [rewrite Hvis; reflexivity |].
  rewrite Q2, Hvis. cbn [app].
  destruct (hd false (tl (tl (plan w)))); cbn [snd storage user];
    rewrite ?storedAccounts_insert_auth, storedAccounts_insert_users;
    split; reflexivity.
Qed.

Lemma find_credentials_none (email password : string) (l : list StoredUser) :
  find (credentialsMatch email password) l = None <->
  (forall a, In a l ->
             ~ (sameEmail email a /\ StoredUser_password a = password)).
Proof.
  split.
  - intros Hfind a Hin Hs. eapply find_none in Hfind; [| exact Hin].
    apply credentialsMatch_true in Hs. congruence.
  - intros Hnone.
    destruct (find (credentialsMatch email password) l) as [a |] eqn:Hfind;
      [| reflexivity].
    apply find_some in Hfind as [Hin Ht].
    apply credentialsMatch_true in Ht. destruct (Hnone a Hin Ht).
Qed.

(** [login] under storage faults. When the read of the collection is
    rejected, a [login] with a registered email and password fails with
    "Invalid email or password" and changes nothing. When the read is
    accepted and the write of the session slot is rejected, it fails with
    "An unexpected error occurred during login", the storage is unchanged,
    and yet the user in memory is already the account's Session User. *)
Theorem login_under_faults (email password : string) (w : World) :
  email <> "" -> password <> "" ->
  (hd false (plan w) = true ->
   fst (login email password w) = Ok (failure "Invalid email or password") /\
   storage (snd (login email password w)) = storage w /\
   user (snd (login email password w)) = user w) /\
  (hd false (plan w) = false -> hd false (tl (plan w)) = true ->
   (exists a, In a (storedAccounts (storage w)) /\
              sameEmail email a /\ StoredUser_password a = password) ->
   exists a,
     In a (storedAccounts (storage w)) /\
     sameEmail email a /\ StoredUser_password a = password /\
     fst (login email password w)
       = Ok (failure "An unexpected error occurred during login") /\
     storage (snd (login email password w)) = storage w /\
     user (snd (login email password w)) = Some (sessionUser a)).
Proof.
  intros He Hp. pose proof (falsy_nor _ _ He Hp) as Hf. split.
  - intros Q1.
    destruct (login_unknown email password w Hf) as [tr ->]; [| repeat split].
    unfold visibleAccounts. rewrite Q1. reflexivity.
  - intros Q1 Q2 (a0 & Hin0 & Hm0).
    destruct (find (credentialsMatch email password) (visibleAccounts w))
      as [a |] eqn:Hfind.
    + destruct (login_known _ _ _ _ Hf Hfind) as [tr ->]. rewrite Q2.
      apply find_some in Hfind as [Hin Hm].
      apply visibleAccounts_In in Hin. apply credentialsMatch_true in Hm.
      exists a. cbn [fst snd storage user]. tauto.
    + rewrite (visibleAccounts_read w Q1) in Hfind.
      destruct (proj1 (find_credentials_none _ _ _) Hfind a0 Hin0 Hm0).
Qed.

Lemma restart_user (w : World) (p : list bool) :
  user (restart w p) = restoredUser (initial (storage w) p).
Proof. unfold restart, mount. rewrite loadUser_run. reflexivity. Qed.

Lemma restoredUser_persisted (st : gmap string string) (p : list bool) (u : User) :
  hd false p = false ->
  st !! AUTH_STORAGE_KEY = Some (stringify_User u) ->
  restoredUser (initial st p) = Some u.
Proof.
  intros Q1 Hslot. unfold restoredUser, initial. cbn [plan storage user].
  rewrite Q1, Hslot, stringify_User_truthy, parse_stringify_User. reflexivity.
Qed.

Lemma restoredUser_absent (st : gmap string string) (p : list bool) :
  st !! AUTH_STORAGE_KEY = None -> restoredUser (initial st p) = None.
Proof.
  intros Hslot. unfold restoredUser, initial. cbn [plan storage user].
  rewrite Hslot. destruct (hd false p); reflexivity.
Qed.

(** The session survives a restart of the application: when [login] or
    [signup] has answered [success: true], starting the provider again on
    the storage they left restores the very user they put in memory; when
    [logout] has answered [success: true], a restart finds nobody logged in
    (the read made at startup being accepted). *)
Theorem restart_restores_session (p : list bool) :
  hd false p = false ->
  (forall email password w,
     fst (login email password w) = Ok (mkAuthResult true None) ->
     user (snd (login email password w)) <> None /\
     user (restart (snd (login email password w)) p)
     = user (snd (login email password w))) /\
  (forall now name email password w,
     fst (signup now name email password w) = Ok (mkAuthResult true None) ->
     user (snd (signup now name email password w)) <> None /\
     user (restart (snd (signup now name email password w)) p)
     = user (snd (signup now name email password w))) /\
  (forall w,
     fst (logout w) = Ok (mkAuthResult true None) ->
     user (snd (logout w)) = None /\
     user (restart (snd (logout w)) p) = None).
Proof.
  intros Q. split; [| split].
  - intros email password w Hok.
    destruct (falsy email || falsy password) eqn:Hf;
      [rewrite login_missing in Hok by assumption; discriminate |].
    destruct (find (credentialsMatch email password) (visibleAccounts w))
      as [a |] eqn:Hfind;
      [| destruct (login_unknown _ _ _ Hf Hfind) as [tr E];
         rewrite E in Hok; discriminate].
    destruct (login_known _ _ _ _ Hf Hfind) as [tr E]. rewrite E in *.
    destruct (hd false (tl (plan w))); [discriminate |].
    cbn [snd user]. split; [discriminate |].
    rewrite restart_user. apply restoredUser_persisted; [exact Q |].
    apply lookup_insert_eq.
  - intros now name email password w Hok.
    destruct (passesInputChecks name email password) eqn:Hc;
      [| destruct (signup_invalid now _ _ _ w Hc) as [msg E];
         rewrite E in Hok; discriminate].
    destruct (find (emailTaken email) (visibleAccounts w)) as [a |] eqn:Hfind;
      [destruct (signup_taken now _ _ _ w a Hc Hfind) as [tr E];
       rewrite E in Hok; discriminate |].
    destruct (signup_fresh now _ _ _ w Hc Hfind) as [tr E]. rewrite E in *.
    destruct (hd false (tl (tl (plan w)))); [discriminate |].
    cbn [snd user]. split; [discriminate |].
    rewrite restart_user. apply restoredUser_persisted; [exact Q |].
    apply lookup_insert_eq.
  - intros w Hok. rewrite logout_run in *.
    destruct (hd false (plan w)); [discriminate |].
    cbn [snd user]. split; [reflexivity |].
    rewrite restart_user. apply restoredUser_absent. apply lookup_delete_eq.
Qed.

Lemma login_storage (email password : string) (w : World) :
  storage (snd (login email password w)) = storage w \/
  exists v,
    storage (snd (login email password w)) = <[AUTH_STORAGE_KEY := v]> (storage w).
Proof.
  destruct (falsy email || falsy password) eqn:Hf.
  - rewrite login_missing by assumption. left. reflexivity.
  - destruct (find (credentialsMatch email password) (visibleAccounts w))
      as [a |] eqn:Hfind.
    + destruct (login_known _ _ _ _ Hf Hfind) as [tr ->].
      destruct (hd false (tl (plan w))); [left; reflexivity |].
      right. eexists. reflexivity.
    + destruct (login_unknown _ _ _ Hf Hfind) as [tr ->]. left. reflexivity.
Qed.

Lemma perform_accounts (w : World) (o : operation) :
  (exists now name email password, o = Signup now name email password) \/
  storedAccounts (storage (perform w o)) = storedAccounts (storage w).
Proof.
  destruct o as [email password | now name email password | |]; cbn [perform].
  - right. destruct (login_storage email password w) as [-> | [v ->]];
      [reflexivity | apply storedAccounts_insert_auth].
  - left. eauto.
  - right. rewrite logout_run. destruct (hd false (plan w)); cbn [snd storage];
      [reflexivity | apply storedAccounts_delete_auth].
  - right. rewrite loadUser_run. reflexivity.
Qed.

(** Whatever the screens call on the provider, in whatever order and
    whichever AsyncStorage calls are rejected, the stored accounts keep
    emails that are distinct without case. *)
Theorem operations_keep_unique (ops : list operation) :
  forall w : World,
    uniqueEmails (storedAccounts (storage w)) ->
    uniqueEmails (storedAccounts (storage (performAll ops w))).
Proof.
  induction ops as [| o ops IH]; intros w Hu; [exact Hu |].
  apply IH.
  destruct (perform_accounts w o) as [(now & name & email & password & ->) | ->];
    [apply signup_keeps_unique |]; exact Hu.
Qed.

Lemma faultless_hd (p : list bool) : faultless p = true -> hd false p = false.
Proof. destruct p as [| [] p]; simpl; congruence. Qed.

Lemma faultless_tl (p : list bool) : faultless p = true -> faultless (tl p) = true.
Proof. destruct p as [| [] p]; simpl; congruence. Qed.

Lemma perform_faultless (w : World) (o : operation) :
  faultless (plan w) = true ->
  faultless (plan (perform w o)) = true /\
  exists more,
    storedAccounts (storage (perform w o)) = storedAccounts (storage w) ++ more.
Proof.
  intros Hq.
  pose proof (faultless_hd _ Hq) as Q1.
  pose proof (faultless_tl _ Hq) as Hq1. pose proof (faultless_hd _ Hq1) as Q2.
  pose proof (faultless_tl _ Hq1) as Hq2. pose proof (faultless_hd _ Hq2) as Q3.
  pose proof (faultless_tl _ Hq2) as Hq3.
  destruct o as [email password | now name email password | |]; cbn [perform].
  - destruct (falsy email || falsy password) eqn:Hf.
    + rewrite login_missing by assumption.
      split; [exact Hq | exists []; symmetry; apply app_nil_r].
    + destruct (find (credentialsMatch email password) (visibleAccounts w))
        as [a |] eqn:Hfind.
      * destruct (login_known _ _ _ _ Hf Hfind) as [tr ->]. rewrite Q2.
        cbn [snd plan storage]. split; [exact Hq2 |].
        exists []. rewrite storedAccounts_insert_auth, app_nil_r. reflexivity.
      * destruct (login_unknown _ _ _ Hf Hfind) as [tr ->].
        cbn [snd plan storage]. split; [exact Hq1 |].
        exists []. rewrite app_nil_r. reflexivity.
  - destruct (passesInputChecks name email password) eqn:Hc.
    + destruct (find (emailTaken email) (visibleAccounts w)) as [a |] eqn:Hfind.
      * destruct (signup_taken now _ _ _ w a Hc Hfind) as [tr ->].
        cbn [snd plan storage]. split; [exact Hq1 |].
        exists []. rewrite app_nil_r. reflexivity.
      * destruct (signup_fresh now _ _ _ w Hc Hfind) as [tr ->].
        rewrite Q2, Q3, (visibleAccounts_read w Q1).
        cbn [snd plan storage]. split; [exact Hq3 |].
        eexists.
        rewrite storedAccounts_insert_auth, storedAccounts_insert_users.
        reflexivity.
    + destruct (signup_invalid now _ _ _ w Hc) as [msg ->].
      split; [exact Hq | exists []; symmetry; apply app_nil_r].
  - rewrite logout_run, Q1. cbn [snd plan storage]. split; [exact Hq1 |].
    exists []. rewrite storedAccounts_delete_auth, app_nil_r. reflexivity.
  - rewrite loadUser_run. cbn [snd plan storage]. split; [exact Hq1 |].
    exists []. rewrite app_nil_r. reflexivity.
Qed.

(** As long as no AsyncStorage call is rejected, registered accounts are
    never removed, reordered or changed: after any calls on the provider
    the collection that was stored before is a prefix of the stored one. *)
Theorem accounts_only_grow (ops : list operation) :
  forall w : World,
    faultless (plan w) = true ->
    exists more,
      storedAccounts (storage (performAll ops w))
      = storedAccounts (storage w) ++ more.
Proof.
  induction ops as [| o ops IH]; intros w Hq.
  - exists []. symmetry. apply app_nil_r.
  - destruct (perform_faultless w o Hq) as [Hq' [more1 E1]].
    destruct (IH (perform w o) Hq') as [more2 E2].
    exists (more1 ++ more2). cbn [performAll fold_left].
    unfold performAll in E2. rewrite E2, E1, app_assoc. reflexivity.
Qed.

(** [getStoredUsers] never fails and never changes the state: it answers
    the empty collection when the read is rejected, when the key is absent,
    when the stored text is empty and when the text does not parse, and the
    stored collection otherwise. *)
Theorem getStoredUsers_fallback (w : World) :
  exists l w',
    Auth.getStoredUsers w = (Ok l, w') /\
    storage w' = storage w /\ user w' = user w /\
    (hd false (plan w) = true -> l = []) /\
    (storage w !! USERS_STORAGE_KEY = None -> l = []) /\
    (storage w !! USERS_STORAGE_KEY = Some "" -> l = []) /\
    (forall text, storage w !! USERS_STORAGE_KEY = Some text ->
                  parse_StoredUsers text = None -> l = []) /\
    (forall l0, hd false (plan w) = false ->
                storage w !! USERS_STORAGE_KEY = Some (stringify_StoredUsers l0) ->
                l = l0).
Proof.
  destruct (getStoredUsers_run w) as [tr ->].
  do 2 eexists. split; [reflexivity |].
  unfold visibleAccounts, storedAccounts. cbn [storage user].
  repeat split.
  - intros ->. reflexivity.
  - intros ->. destruct (hd false (plan w)); reflexivity.
  - intros ->. destruct (hd false (plan w)); reflexivity.
  - intros text -> ->. destruct (hd false (plan w)), (falsy text); reflexivity.
  - intros l0 -> ->.
    rewrite stringify_StoredUsers_truthy, parse_stringify_StoredUsers.
    reflexivity.
Qed.

(** The provider writes nothing but its two keys: [logout] leaves every key
    other than [@auth_user] as it is, [signup] every key other than
    [@auth_user] and [@auth_users], [loadUser] the whole storage; and
    [signup] and [logout] never touch the loading flag. *)
Theorem provider_storage_frame (w : World) :
  (forall key, key <> AUTH_STORAGE_KEY ->
               storage (snd (logout w)) !! key = storage w !! key) /\
  (forall now name email password key,
     key <> AUTH_STORAGE_KEY -> key <> USERS_STORAGE_KEY ->
     storage (snd (signup now name email password w)) !! key = storage w !! key) /\
  storage (snd (loadUser w)) = storage w /\
  (forall now name email password,
     isLoading (snd (signup now name email password w)) = isLoading w) /\
  isLoading (snd (logout w)) = isLoading w.
Proof.
  split; [| split; [| split; [| split]]].
  - intros key Hk. rewrite logout_run.
    destruct (hd false (plan w)); cbn [snd storage]; [reflexivity |].
    apply lookup_delete_ne. congruence.
  - intros now name email password key Ha Hu.
    destruct (passesInputChecks name email password) eqn:Hc.
    + destruct (find (emailTaken email) (visibleAccounts w)) as [a |] eqn:Hfind.
      * destruct (signup_taken now _ _ _ w a Hc Hfind) as [tr ->]. reflexivity.
      * destruct (signup_fresh now _ _ _ w Hc Hfind) as [tr ->].
        destruct (hd false (tl (tl (plan w)))), (hd false (tl (plan w)));
          cbn [snd storage]; rewrite ?lookup_insert_ne by congruence;
          reflexivity.
    + destruct (signup_invalid now _ _ _ w Hc) as [msg ->]. reflexivity.
  - rewrite loadUser_run. reflexivity.
  - intros now name email password.
    destruct (passesInputChecks name email password) eqn:Hc.
    + destruct (find (emailTaken email) (visibleAccounts w)) as [a |] eqn:Hfind.
      * destruct (signup_taken now _ _ _ w a Hc Hfind) as [tr ->]. reflexivity.
      * destruct (signup_fresh now _ _ _ w Hc Hfind) as [tr ->].
        destruct (hd false (tl (tl (plan w)))); reflexivity.
    + destruct (signup_invalid now _ _ _ w Hc) as [msg ->]. reflexivity.
  - rewrite logout_run. destruct (hd false (plan w)); reflexivity.
Qed.

Lemma find_app_last_none {A} (f : A -> bool) (l : list A) (a : A) :
  (forall x, In x l -> f x = false) ->
  find f (l ++ [a]) = if f a then Some a else None.
Proof.
  induction l as [| x l IH]; intros Hl; [reflexivity |].
  cbn [app find]. rewrite (Hl x) by (left; reflexivity).
  apply IH. intros y Hy. apply Hl. right. exact Hy.
Qed.

Lemma toLowerCase_empty (s : string) : toLowerCase s = "" -> s = "".
Proof. destruct s; [reflexivity | discriminate]. Qed.

(** After a [signup] that answered [success: true], a [login] with the same
    password and the email in any spelling that differs only by letter case
    succeeds, and the user in memory is the registered one, with the email
    as it was typed at [signup]; a [login] with any other password fails
    with "Invalid email or password" (none of the AsyncStorage calls being
    rejected). *)
Theorem login_after_signup (now : Z) (name email password email' : string)
    (w : World) :
  calm 5 (plan w) = true ->
  fst (signup now name email password w) = Ok (mkAuthResult true None) ->
  toLowerCase email' = toLowerCase email ->
  let w1 := snd (signup now name email password w) in
  fst (login email' password w1) = Ok (mkAuthResult true None) /\
  user (snd (login email' password w1)) = Some (mkUser name email (toString now)) /\
  (forall wrong,
     wrong <> "" -> wrong <> password ->
     fst (login email' wrong w1) = Ok (failure "Invalid email or password")).
Proof.
  intros Hq Hok Hlow.
  pose proof (calm_hd _ _ Hq) as Q1.
  pose proof (calm_tl _ _ Hq) as Hq1. pose proof (calm_hd _ _ Hq1) as Q2.
  pose proof (calm_tl _ _ Hq1) as Hq2. pose proof (calm_hd _ _ Hq2) as Q3.
  pose proof (calm_tl _ _ Hq2) as Hq3. pose proof (calm_hd _ _ Hq3) as Q4.
  pose proof (calm_tl _ _ Hq3) as Hq4. pose proof (calm_hd _ _ Hq4) as Q5.
  destruct (passesInputChecks name email password) eqn:Hc;
    [| destruct (signup_invalid now _ _ _ w Hc) as [msg E];
       rewrite E in Hok; discriminate].
  destruct (find (emailTaken email) (visibleAccounts w)) as [a |] eqn:Hfind;
    [destruct (signup_taken now _ _ _ w a Hc Hfind) as [tr E];
     rewrite E in Hok; discriminate |].
  destruct (signup_fresh now _ _ _ w Hc Hfind) as [tr E].
  rewrite Q2, Q3 in E. rewrite E. clear E Hok. cbv zeta. cbn [snd].
  set (new := mkStoredUser name email password (toString now)).
  set (w1 := mkWorld _ _ _ _ _).
  assert (visibleAccounts w1 = visibleAccounts w ++ [new]) as Hvis.
  { unfold visibleAccounts at 1. subst w1. cbn [plan storage]. rewrite Q4.
    rewrite storedAccounts_insert_auth. apply storedAccounts_insert_users. }
  apply passesInputChecks_true in Hc as (Hf & _ & _).
  assert (email <> "" /\ password <> "") as [He Hp]
    by (destruct name, email, password; simpl in Hf; split; congruence).
  assert (email' <> "") as He'.
  { intros ->. symmetry in Hlow. apply toLowerCase_empty in Hlow. congruence. }
  assert (forall pw x, In x (visibleAccounts w) ->
                       credentialsMatch email' pw x = false) as Hothers.
  { intros pw x Hx. unfold credentialsMatch. rewrite Hlow.
    eapply find_none in Hfind; [| exact Hx].
    unfold emailTaken in Hfind. rewrite Hfind. reflexivity. }
  split; [| split].
  - destruct (login_known email' password w1 new (falsy_nor _ _ He' Hp))
      as [tr3 ->].
    + rewrite Hvis, find_app_last_none by apply Hothers.
      unfold credentialsMatch. subst new. cbn [StoredUser_email StoredUser_password].
      rewrite Hlow, !String.eqb_refl. reflexivity.
    + subst w1. cbn [plan tl]. rewrite Q5. reflexivity.
  - destruct (login_known email' password w1 new (falsy_nor _ _ He' Hp))
      as [tr3 ->].
    + rewrite Hvis, find_app_last_none by apply Hothers.
      unfold credentialsMatch. subst new. cbn [StoredUser_email StoredUser_password].
      rewrite Hlow, !String.eqb_refl. reflexivity.
    + subst w1. cbn [plan tl]. rewrite Q5. reflexivity.
  - intros wrong Hw Hne.
    destruct (login_unknown email' wrong w1 (falsy_nor _ _ He' Hw)) as [tr3 ->];
      [| reflexivity].
    rewrite Hvis, find_app_last_none by apply Hothers.
    unfold credentialsMatch. subst new. cbn [StoredUser_email StoredUser_password].
    apply String.eqb_neq in Hne. rewrite String.eqb_sym in Hne.
    rewrite Hne, andb_false_r. reflexivity.
Qed.

End AuthFacts.

(** ** The ids of the accounts *)
Section IdFacts.
Import JS Auth AuthSpec.
Context `{JSON}.
Local Open Scope list_scope.

Lemma to_int_nonnil (n : Z) :
  Z.to_int n <> Decimal.Pos Decimal.Nil /\ Z.to_int n <> Decimal.Neg Decimal.Nil.
Proof.
  destruct n as [| p | p]; simpl; split; try discriminate;
    intros E; injection E as E;
    apply (DecimalPos.Unsigned.to_uint_nonnil p E).
Qed.

Lemma toString_inj (n m : Z) : toString n = toString m -> n = m.
Proof.
  intros E. apply DecimalZ.to_int_inj.
  destruct (to_int_nonnil n) as [Hn1 Hn2].
  destruct (to_int_nonnil m) as [Hm1 Hm2].
  pose proof (NilZero.isi _ Hn1 Hn2) as In.
  pose proof (NilZero.isi _ Hm1 Hm2) as Im.
  unfold toString in E. rewrite E in In. congruence.
Qed.

Lemma signup_ok_accounts (now : Z) (name email password : string) (w : World) :
  fst (signup now name email password w) = Ok (mkAuthResult true None) ->
  hd false (plan w) = false ->
  hd false (tl (plan w)) = false ->
  storedAccounts (storage (snd (signup now name email password w)))
  = storedAccounts (storage w)
    ++ [mkStoredUser name email password (toString now)] /\
  plan (snd (signup now name email password w)) = tl (tl (tl (plan w))).
Proof.
  intros Hok Q1 Q2.
  destruct (passesInputChecks name email password) eqn:Hc;
    [| destruct (signup_invalid now _ _ _ w Hc) as [msg E];
       rewrite E in Hok; discriminate].
  destruct (find (emailTaken email) (visibleAccounts w)) as [a |] eqn:Hfind;
    [destruct (signup_taken now _ _ _ w a Hc Hfind) as [tr E];
     rewrite E in Hok; discriminate |].
  destruct (signup_fresh now _ _ _ w Hc Hfind) as [tr E]. rewrite E in *.
  rewrite Q2, (visibleAccounts_read w Q1) in *.
  destruct (hd false (tl (tl (plan w)))); [discriminate |].
  cbn [snd storage plan].
  rewrite storedAccounts_insert_auth, storedAccounts_insert_users.
  split; reflexivity.
Qed.

(** The id of an account is the decimal text of the clock reading of its
    [signup]: two accounts registered one after the other get the same id
    exactly when the clock read the same at both calls, so the ids are
    distinct only as far as the clock readings are (none of the
    AsyncStorage calls being rejected). *)
Theorem signup_ids (now1 now2 : Z) (name1 email1 pw1 name2 email2 pw2 : string)
    (w : World) :
  calm 5 (plan w) = true ->
  fst (signup now1 name1 email1 pw1 w) = Ok (mkAuthResult true None) ->
  let w1 := snd (signup now1 name1 email1 pw1 w) in
  fst (signup now2 name2 email2 pw2 w1) = Ok (mkAuthResult true None) ->
  exists a1 a2,
    storedAccounts (storage (snd (signup now2 name2 email2 pw2 w1)))
    = storedAccounts (storage w) ++ [a1; a2] /\
    StoredUser_email a1 = email1 /\ StoredUser_email a2 = email2 /\
    StoredUser_id a1 = toString now1 /\ StoredUser_id a2 = toString now2 /\
    (StoredUser_id a1 = StoredUser_id a2 <-> now1 = now2).
Proof.
  intros Hq Hok1 w1 Hok2.
  pose proof (calm_hd _ _ Hq) as Q1.
  pose proof (calm_tl _ _ Hq) as Hq1. pose proof (calm_hd _ _ Hq1) as Q2.
  pose proof (calm_tl _ _ Hq1) as Hq2.
  pose proof (calm_tl _ _ Hq2) as Hq3. pose proof (calm_hd _ _ Hq3) as Q4.
  pose proof (calm_tl _ _ Hq3) as Hq4. pose proof (calm_hd _ _ Hq4) as Q5.
  destruct (signup_ok_accounts now1 _ _ _ w Hok1 Q1 Q2) as [E1 P1].
  fold w1 in E1, P1.
  destruct (signup_ok_accounts now2 _ _ _ w1 Hok2) as [E2 _];
    [rewrite P1; exact Q4 | rewrite P1; exact Q5 |].
  do 2 eexists. rewrite E2, E1, <- app_assoc. cbn [app].
  split; [reflexivity |]. cbn [StoredUser_email StoredUser_id].
  repeat split; [apply toString_inj | congruence].
Qed.

End IdFacts.

(** ** The shape of an accepted email *)
Section EmailFacts.
Import JS Regex Validator EmailSpec.
Local Open Scope list_scope.

Lemma trimEnd_id (s : string) :
  Forall (fun c => isWhiteSpace c = false) (list_ascii_of_string s) ->
  trimEnd s = s.
Proof.
  induction s as [| c s IH]; [reflexivity |].
  cbn [list_ascii_of_string trimEnd]. inversion 1 as [| ? ? Hc Hs]; subst.
  rewrite (IH Hs). destruct s; [rewrite Hc |]; reflexivity.
Qed.

Lemma trim_id (s : string) :
  Forall (fun c => isWhiteSpace c = false) (list_ascii_of_string s) ->
  trim s = s.
Proof.
  intros Hall. unfold trim.
  assert (trimStart s = s) as ->.
  { destruct s as [| c s]; [reflexivity |].
    inversion Hall as [| ? ? Hc _]; subst. cbn [trimStart]. rewrite Hc.
    reflexivity. }
  apply trimEnd_id, Hall.
Qed.

Lemma word_chars (s : string) :
  word s ->
  Forall (fun c => isWhiteSpace c = false) (list_ascii_of_string s) /\
  List.filter (Ascii.eqb "@") (list_ascii_of_string s) = [] /\
  1 <= String.length s.
Proof.
  intros [Hne Hall]. split; [| split].
  - eapply Forall_impl; [exact Hall |]. intros c [Hc _]. exact Hc.
  - clear Hne. induction Hall as [| c l [_ Hc] _ IH]; [reflexivity |].
    cbn [List.filter]. apply Ascii.eqb_neq in Hc.
    rewrite Ascii.eqb_sym, Hc. exact IH.
  - destruct s; [congruence | simpl; lia].
Qed.

Lemma length_list_ascii (s : string) :
  length (list_ascii_of_string s) = String.length s.
Proof. induction s as [| c s IH]; simpl; [| rewrite IH]; reflexivity. Qed.

Lemma emailRegex_chars (v : string) :
  test emailRegex v = true ->
  Forall (fun c => isWhiteSpace c = false) (list_ascii_of_string v) /\
  length (List.filter (Ascii.eqb "@") (list_ascii_of_string v)) = 1 /\
  trim v = v /\
  5 <= String.length v.
Proof.
  intros (a & b & c & -> & Ha & Hb & Hc)%test_emailRegex.
  apply word_chars in Ha as (Ha1 & Ha2 & Ha3).
  apply word_chars in Hb as (Hb1 & Hb2 & Hb3).
  apply word_chars in Hc as (Hc1 & Hc2 & Hc3).
  assert (Forall (fun c0 => isWhiteSpace c0 = false)
            (list_ascii_of_string (a ++ "@" ++ b ++ "." ++ c)%string)) as Hall.
  { rewrite !list_ascii_of_string_app. cbn [list_ascii_of_string].
    repeat (apply Forall_app; split); auto; repeat constructor. }
  split; [exact Hall |]. split; [| split; [apply trim_id, Hall |]].
  - rewrite !list_ascii_of_string_app, !List.filter_app, Ha2, Hb2, Hc2.
    reflexivity.
  - rewrite <- length_list_ascii, !list_ascii_of_string_app, !length_app,
      !length_list_ascii.
    simpl. lia.
Qed.

(** An email that the regular expression of the form and of [signup]
    accepts contains no white space and exactly one [@], is left as it is by
    [trim], and has at least five characters. *)
Theorem accepted_email_shape (v : string) :
  test emailRegex v = true ->
  Forall (fun c => isWhiteSpace c = false) (list_ascii_of_string v) /\
  length (List.filter (Ascii.eqb "@") (list_ascii_of_string v)) = 1 /\
  trim v = v /\
  5 <= String.length v.
Proof. apply emailRegex_chars. Qed.

End EmailFacts.

(** ** The signup screen *)
Section SignupScreenFacts.
Import JS Regex Validator EmailSpec SignupScreen.
Context `{Auth.JSON}.
Local Open Scope list_scope.

(** [validateField("name", v)] is "Name is required" exactly when [v.trim()]
    is empty, "Name must be at least 2 characters" exactly when [v.trim()]
    has one character, and [undefined] exactly when [v.trim()] has two
    characters or more. *)
Theorem validateField_name (formPassword v : string) :
  (validateField formPassword name v = Some "Name is required"
     <-> trim v = "") /\
  (validateField formPassword name v = Some "Name must be at least 2 characters"
     <-> String.length (trim v) = 1) /\
  (validateField formPassword name v = None <-> 2 <= String.length (trim v)).
Proof.
  unfold validateField.
  destruct (falsy (trim v)) eqn:Ef.
  - apply falsy_true in Ef. rewrite Ef. simpl.
    repeat split; try discriminate; try tauto; try lia.
  - apply falsy_false in Ef.
    assert (1 <= String.length (trim v))
      by (destruct (trim v); [congruence | simpl; lia]).
    destruct (String.length (trim v) <? 2)%nat eqn:El.
    + apply Nat.ltb_lt in El.
      repeat split; try discriminate; try tauto; try lia; try congruence.
    + apply Nat.ltb_ge in El.
      repeat split; try discriminate; try tauto; try lia; try congruence.
Qed.

(** [validateField("confirmPassword", v)] is "Please confirm your password"
    exactly when [v] is empty, "Passwords do not match" exactly when [v] is
    not empty and differs from the password of the form, and [undefined]
    exactly when [v] is not empty and equals it, character for character. *)
Theorem validateField_confirmPassword (formPassword v : string) :
  (validateField formPassword confirmPassword v
     = Some "Please confirm your password" <-> v = "") /\
  (validateField formPassword confirmPassword v = Some "Passwords do not match"
     <-> v <> "" /\ v <> formPassword) /\
  (validateField formPassword confirmPassword v = None
     <-> v <> "" /\ v = formPassword).
Proof.
  unfold validateField.
  destruct (falsy v) eqn:Ef.
  - apply falsy_true in Ef.
    repeat split; try discriminate; try tauto.
  - apply falsy_false in Ef.
    destruct (String.eqb v formPassword) eqn:Ev; cbn [negb].
    + apply String.eqb_eq in Ev.
      repeat split; try discriminate; try tauto; try congruence.
    + apply String.eqb_neq in Ev.
      repeat split; try discriminate; try tauto; try congruence.
Qed.

Lemma truthy_validateField (formPassword : string) (f : field) (v : string) :
  truthy (validateField formPassword f v)
  = match validateField formPassword f v with Some _ => true | None => false end.
Proof.
  unfold validateField.
  destruct f;
    repeat match goal with
           | |- context [if ?c then _ else _] => destruct c
           end; reflexivity.
Qed.

Lemma collectErrors_all (fs : SignupFormState) :
  collectErrors fs =
  (mkErrors (validate fs name) (validate fs email) (validate fs password)
     (validate fs confirmPassword),
   match validate fs name, validate fs email, validate fs password,
         validate fs confirmPassword with
   | None, None, None, None => true
   | _, _, _, _ => false
   end).
Proof.
  unfold collectErrors, formKeys. cbn [fold_left asField].
  unfold validate. rewrite !truthy_validateField.
  destruct (validateField _ name _), (validateField _ email _),
    (validateField _ password _), (validateField _ confirmPassword _);
    reflexivity.
Qed.

Lemma validate_name_ok (fs : SignupFormState) :
  validate fs name = None <-> 2 <= String.length (trim (form_name fs)).
Proof.
  unfold validate, validateField. cbn [fieldValue].
  destruct (falsy (trim (form_name fs))) eqn:Ef.
  - apply falsy_true in Ef. rewrite Ef. simpl. split; [discriminate | lia].
  - destruct (String.length (trim (form_name fs)) <? 2)%nat eqn:El.
    + apply Nat.ltb_lt in El. split; [discriminate | lia].
    + apply Nat.ltb_ge in El. tauto.
Qed.

Lemma validate_email_ok (fs : SignupFormState) :
  validate fs email = None <-> test emailRegex (form_email fs) = true.
Proof.
  unfold validate, validateField. cbn [fieldValue].
  destruct (test emailRegex (form_email fs)) eqn:Et.
  - destruct (emailRegex_chars _ Et) as (_ & _ & Htrim & Hlen).
    rewrite Htrim.
    destruct (form_email fs); [simpl in Hlen; lia |]. simpl. tauto.
  - destruct (falsy (trim (form_email fs))); simpl; split; discriminate.
Qed.

Lemma validate_password_ok (fs : SignupFormState) :
  validate fs password = None <-> 6 <= String.length (form_password fs).
Proof.
  unfold validate, validateField. cbn [fieldValue].
  destruct (form_password fs) as [| c pw] eqn:Ep;
    [simpl; split; [discriminate | lia] |].
  cbn [falsy].
  destruct (String.length (String c pw) <? 6)%nat eqn:El.
  - apply Nat.ltb_lt in El. split; [discriminate | lia].
  - apply Nat.ltb_ge in El. tauto.
Qed.

Lemma validate_confirm_ok (fs : SignupFormState) :
  validate fs confirmPassword = None <->
  form_confirmPassword fs <> "" /\ form_confirmPassword fs = form_password fs.
Proof.
  unfold validate, validateField. cbn [fieldValue].
  destruct (falsy (form_confirmPassword fs)) eqn:Ef.
  - apply falsy_true in Ef. split; [discriminate | tauto].
  - apply falsy_false in Ef.
    destruct (String.eqb (form_confirmPassword fs) (form_password fs)) eqn:Ev;
      cbn [negb].
    + apply String.eqb_eq in Ev. tauto.
    + apply String.eqb_neq in Ev. split; [discriminate | tauto].
Qed.

Lemma validateAllFields_true (s : Screen) :
  fst (validateAllFields s) = true <->
  2 <= String.length (trim (form_name (formState s))) /\
  test emailRegex (form_email (formState s)) = true /\
  6 <= String.length (form_password (formState s)) /\
  form_confirmPassword (formState s) = form_password (formState s).
Proof.
  unfold validateAllFields. rewrite collectErrors_all. cbn [fst].
  rewrite <- validate_name_ok, <- validate_email_ok, <- validate_password_ok.
  split.
  - intros Hv.
    destruct (validate (formState s) name) eqn:E1; [discriminate |].
    destruct (validate (formState s) email) eqn:E2; [discriminate |].
    destruct (validate (formState s) password) eqn:E3; [discriminate |].
    destruct (validate (formState s) confirmPassword) eqn:E4; [discriminate |].
    apply validate_confirm_ok in E4. tauto.
  - intros (H1 & H2 & H3 & H4).
    assert (validate (formState s) confirmPassword = None) as H4'.
    { apply validate_confirm_ok. split; [| exact H4].
      apply validate_password_ok in H3.
      rewrite H4. intros E. rewrite E in H3. simpl in H3. lia. }
    rewrite H1, H2, H3, H4'. reflexivity.
Qed.

(** [validateAllFields] reports every invalid field at once: the errors it
    sets are, field by field, what [validateField] answers; it marks all
    four fields as touched and leaves the typed values alone; and it
    answers [true] exactly when the trimmed name has two characters or more,
    the email has the accepted shape, the password has six characters or
    more and the confirmation equals the password. *)
Theorem validateAllFields_spec (s : Screen) :
  let fs := formState s in
  let r := validateAllFields s in
  errors (snd r)
  = mkErrors (validate fs name) (validate fs email) (validate fs password)
      (validate fs confirmPassword) /\
  touched (snd r) = mkTouched true true true true /\
  formState (snd r) = fs /\
  (fst r = true <->
   2 <= String.length (trim (form_name fs)) /\
   emailShape (form_email fs) /\
   6 <= String.length (form_password fs) /\
   form_confirmPassword fs = form_password fs).
Proof.
  cbv zeta. split; [| split; [| split]].
  - unfold validateAllFields. rewrite collectErrors_all. reflexivity.
  - unfold validateAllFields. rewrite collectErrors_all. reflexivity.
  - unfold validateAllFields. rewrite collectErrors_all. reflexivity.
  - rewrite validateAllFields_true, test_emailRegex. reflexivity.
Qed.

Lemma validateAllFields_inputs (s : Screen) :
  fst (validateAllFields s) = true ->
  AuthSpec.passesInputChecks
    (trim (form_name (formState s))) (trim (form_email (formState s)))
    (form_password (formState s)) = true.
Proof.
  intros (H1 & H2 & H3 & _)%validateAllFields_true.
  destruct (emailRegex_chars _ H2) as (_ & _ & Htrim & Hlen).
  unfold AuthSpec.passesInputChecks. rewrite Htrim.
  change Auth.emailRegex with emailRegex. rewrite H2.
  apply Nat.ltb_ge in H3 as H3'. rewrite H3'.
  destruct (trim (form_name (formState s))); [simpl in H1; lia |].
  destruct (form_email (formState s)); [simpl in Hlen; lia |].
  destruct (form_password (formState s)); [simpl in H3; lia |].
  reflexivity.
Qed.

(** A form that [validateAllFields] accepts passes the input checks of
    [signup] on the values that [handleSignup] sends, the trimmed name, the
    trimmed email and the password: the form is at least as strict as the
    provider. *)
Theorem valid_form_passes_signup_checks (s : Screen) :
  fst (validateAllFields s) = true ->
  AuthSpec.passesInputChecks
    (trim (form_name (formState s))) (trim (form_email (formState s)))
    (form_password (formState s)) = true.
Proof. apply validateAllFields_inputs. Qed.

(** [handleSignup] never shows an alert. With a form that does not validate
    it does not call the provider. With a form that validates it calls
    [signup] with the trimmed name, the trimmed email and the password and
    ends with [isLoading] false; the provider then answers success, "User
    with this email already exists" or "An unexpected error occurred during
    signup", never an input error, and a failure is not reported on the
    screen. *)
Theorem handleSignup_spec (now : Z) (s : Screen) (w : Auth.World) :
  let fs := formState s in
  let call :=
    Auth.signup now (trim (form_name fs)) (trim (form_email fs))
      (form_password fs) w in
  let r := handleSignup now s w in
  snd r = [] /\
  (fst (validateAllFields s) = false ->
   fst r = (snd (validateAllFields s), w)) /\
  (fst (validateAllFields s) = true ->
   snd (fst r) = snd call /\
   form_isLoading (formState (fst (fst r))) = false /\
   errors (fst (fst r)) = noErrors /\
   exists res,
     fst call = Auth.Ok res /\
     (res = Auth.mkAuthResult true None \/
      res = Auth.failure "User with this email already exists" \/
      res = Auth.failure "An unexpected error occurred during signup")).
Proof.
  cbv zeta.
  pose proof (validateAllFields_inputs s) as Hin.
  pose proof (proj1 (validateAllFields_true s)) as Hval.
  unfold handleSignup.
  assert (errors (snd (validateAllFields s))
          = mkErrors (validate (formState s) name) (validate (formState s) email)
              (validate (formState s) password)
              (validate (formState s) confirmPassword)) as Herr
    by (unfold validateAllFields; rewrite collectErrors_all; reflexivity).
  destruct (validateAllFields s) as [[] s1] eqn:Ev; cbn [fst snd negb] in *.
  - specialize (Hin eq_refl). specialize (Hval eq_refl).
    destruct Hval as (H1 & H2 & H3 & H4).
    assert (errors s1 = noErrors) as Hnone.
    { rewrite Herr.
      rewrite (proj2 (validate_name_ok _) H1), (proj2 (validate_email_ok _) H2),
        (proj2 (validate_password_ok _) H3).
      assert (validate (formState s) confirmPassword = None) as ->;
        [| reflexivity].
      apply validate_confirm_ok. split; [| exact H4].
      rewrite H4. intros E. rewrite E in H3. simpl in H3. lia. }
    set (n := trim (form_name (formState s))) in *.
    set (e := trim (form_email (formState s))) in *.
    set (pw := form_password (formState s)) in *.
    destruct (find (AuthSpec.emailTaken e) (AuthSpec.visibleAccounts w))
      as [a |] eqn:Hfind.
    + destruct (signup_taken now n e pw w a Hin Hfind) as [tr ->].
      cbn [fst snd formState errors]. repeat split; auto.
      * discriminate.
      * eexists. split; [reflexivity |]. right; left. reflexivity.
    + destruct (signup_fresh now n e pw w Hin Hfind) as [tr ->].
      destruct (hd false (tl (tl (Auth.plan w))));
        cbn [fst snd formState errors]; repeat split; auto;
        try discriminate; eexists; (split; [reflexivity |]); auto.
  - repeat split; discriminate.
Qed.

(** While the password is being typed, [errors.password] holds the length
    error exactly when one to five characters are entered (an emptied field
    has none), and typing does not touch any field: the screen therefore
    displays the length error exactly when the password field had been
    touched before and one to five characters are entered, and displays
    nothing on an untouched field. When the confirmation has been touched
    and is not empty, its error follows the comparison with what is typed,
    and is displayed. *)
Theorem typing_password (value : string) (s : Screen) :
  let s' := onChangePassword value s in
  let short := (0 <? String.length value)%nat && (String.length value <? 6)%nat in
  form_password (formState s') = value /\
  touched s' = touched s /\
  truthy (error_password (errors s')) = short /\
  shownError s' password
  = (if touched_password (touched s) && short
     then Some "Password must be at least 6 characters" else None) /\
  (touched_confirmPassword (touched s) = true ->
   form_confirmPassword (formState s) <> "" ->
   error_confirmPassword (errors s')
   = (if String.eqb value (form_confirmPassword (formState s))
      then None else Some "Passwords do not match") /\
   shownError s' confirmPassword = error_confirmPassword (errors s')) /\
  error_name (errors s') = error_name (errors s) /\
  error_email (errors s') = error_email (errors s).
Proof.
  cbv zeta. unfold shownError, onChangePassword, updateFormField.
  cbn [formState errors touched errorOf touchedOf].
  destruct ((0 <? String.length value)%nat && (String.length value <? 6)%nat)
    eqn:Hlen;
    destruct (truthy (error_password (errors s))) eqn:Herr;
    destruct (touched_password (touched s));
    destruct (touched_confirmPassword (touched s));
    destruct (form_confirmPassword (formState s)) as [| c cp];
    cbn [falsy negb andb setError setFieldValue form_password error_password
         error_confirmPassword error_name error_email truthy];
    rewrite ?Herr;
    (split; [reflexivity |]); (split; [reflexivity |]);
    (split; [reflexivity || exact Herr |]);
    (split; [reflexivity || (rewrite Herr; reflexivity) || idtac |]);
    (split; [| split; reflexivity]);
    try (intros; congruence);
    try (intros _ _; destruct (String.eqb value (String c cp)); split; reflexivity).
Qed.

(** The match indicator agrees with the validation of the confirmation: it
    is absent exactly when the confirmation is required, says "match"
    exactly when [validateField] has no error for it, and "mismatch" exactly
    when the error is "Passwords do not match". *)
Theorem passwordMatchStatus_agrees (fs : SignupFormState) :
  (getPasswordMatchStatus fs = None
     <-> validate fs confirmPassword = Some "Please confirm your password") /\
  (getPasswordMatchStatus fs = Some "match"
     <-> validate fs confirmPassword = None) /\
  (getPasswordMatchStatus fs = Some "mismatch"
     <-> validate fs confirmPassword = Some "Passwords do not match").
Proof.
  unfold getPasswordMatchStatus, validate, validateField. cbn [fieldValue].
  rewrite (String.eqb_sym (form_password fs)).
  destruct (falsy (form_confirmPassword fs));
    [| destruct (String.eqb (form_confirmPassword fs) (form_password fs))];
    cbn [negb]; repeat split; congruence.
Qed.

End SignupScreenFacts.

(** ** The login screens and the logout buttons *)
Section LoginScreenFacts.
Import JS Regex Validator EmailSpec.
Context `{Auth.JSON}.
Local Open Scope list_scope.

Lemma login_answers (email password : string) (w : Auth.World) :
  email <> "" -> password <> "" ->
  exists res w',
    Auth.login email password w = (Auth.Ok res, w') /\
    (res = Auth.mkAuthResult true None \/
     res = Auth.failure "Invalid email or password" \/
     res = Auth.failure "An unexpected error occurred during login").
Proof.
  intros He Hp. pose proof (falsy_nor _ _ He Hp) as Hf.
  destruct (find (AuthSpec.credentialsMatch email password)
              (AuthSpec.visibleAccounts w)) as [a |] eqn:Hfind.
  - destruct (login_known _ _ _ _ Hf Hfind) as [tr ->].
    destruct (hd false (tl (Auth.plan w))); do 2 eexists;
      (split; [reflexivity |]); auto.
  - destruct (login_unknown _ _ _ Hf Hfind) as [tr ->].
    do 2 eexists. split; [reflexivity |]. auto.
Qed.

Lemma login_collectErrors_true (fs : LoginScreen.LoginFormState) :
  snd (LoginScreen.collectErrors fs) = true ->
  test emailRegex (LoginScreen.form_email fs) = true /\
  6 <= String.length (LoginScreen.form_password fs).
Proof.
  unfold LoginScreen.collectErrors, validateFieldLogin.
  destruct (test emailRegex (LoginScreen.form_email fs)) eqn:Et.
  - destruct (LoginScreen.form_password fs) as [| c pw] eqn:Ep;
      [destruct (falsy (trim (LoginScreen.form_email fs))); discriminate |].
    cbn [falsy].
    destruct (String.length (String c pw) <? 6)%nat eqn:El.
    + destruct (falsy (trim (LoginScreen.form_email fs))); discriminate.
    + apply Nat.ltb_ge in El. tauto.
  - destruct (falsy (trim (LoginScreen.form_email fs)));
      destruct (falsy (LoginScreen.form_password fs));
      try destruct (String.length (LoginScreen.form_password fs) <? 6)%nat;
      discriminate.
Qed.

(** [handleLogin] of the login screen never throws. With a form that does
    not validate (an email of the wrong shape, a password shorter than six
    characters) it does not call the provider and shows no alert. With a
    form that validates it calls [login] with the trimmed email and the
    password, ends with [isLoading] false, and shows the alert "Login
    Failed" with the provider's error exactly when the provider answers a
    failure, which is then "Invalid email or password" or "An unexpected
    error occurred during login". *)
Theorem handleLogin_spec (s : LoginScreen.Screen) (w : Auth.World) :
  let fs := LoginScreen.formState s in
  let call :=
    Auth.login (trim (LoginScreen.form_email fs)) (LoginScreen.form_password fs) w in
  let r := LoginScreen.handleLogin s w in
  fst r = Auth.Ok tt /\
  (fst (LoginScreen.validateAllFields s) = false ->
   snd r = (snd (LoginScreen.validateAllFields s), w, [])) /\
  (fst (LoginScreen.validateAllFields s) = true ->
   snd (fst (snd r)) = snd call /\
   LoginScreen.form_isLoading (LoginScreen.formState (fst (fst (snd r)))) = false /\
   exists res,
     fst call = Auth.Ok res /\
     ((res = Auth.mkAuthResult true None /\ snd (snd r) = []) \/
      (res = Auth.failure "Invalid email or password" /\
       snd (snd r) = [("Login Failed", "Invalid email or password")]) \/
      (res = Auth.failure "An unexpected error occurred during login" /\
       snd (snd r)
       = [("Login Failed", "An unexpected error occurred during login")]))).
Proof.
  cbv zeta. unfold LoginScreen.handleLogin, LoginScreen.validateAllFields.
  pose proof (login_collectErrors_true (LoginScreen.formState s)) as Hval.
  destruct (LoginScreen.collectErrors (LoginScreen.formState s))
    as [newErrors []]; cbn [fst snd negb] in *.
  - destruct (Hval eq_refl) as [Ht Hlen].
    destruct (emailRegex_chars _ Ht) as (_ & _ & Htrim & Hlen').
    rewrite Htrim.
    destruct (login_answers (LoginScreen.form_email (LoginScreen.formState s))
                (LoginScreen.form_password (LoginScreen.formState s)) w)
      as (res & w' & E & Hres).
    { destruct (LoginScreen.form_email (LoginScreen.formState s));
        [simpl in Hlen'; lia | discriminate]. }
    { destruct (LoginScreen.form_password (LoginScreen.formState s));
        [simpl in Hlen; lia | discriminate]. }
    rewrite E. cbn [fst snd].
    split; [reflexivity |]. split; [discriminate |]. intros _.
    split; [reflexivity |]. split; [reflexivity |].
    exists res. split; [reflexivity |].
    destruct Hres as [-> | [-> | ->]]; cbn; auto.
  - split; [reflexivity |]. split; [reflexivity | discriminate].
Qed.

(** [handleLogin] of the login screen without field validation: with an
    email or a password that is blank once trimmed it shows "Please enter
    both email and password" and does not call the provider; otherwise it
    calls [login] with the trimmed email and the password as typed, ends
    with [isLoading] false, and shows no alert at all, also when the
    provider answers a failure. *)
Theorem plain_handleLogin_spec (fs : LoginScreenPlain.LoginFormState)
    (w : Auth.World) :
  let email := LoginScreenPlain.form_email fs in
  let password := LoginScreenPlain.form_password fs in
  (trim email = "" \/ trim password = "" ->
   LoginScreenPlain.handleLogin fs w
   = (fs, w, [("Error", "Please enter both email and password")])) /\
  (trim email <> "" -> trim password <> "" ->
   LoginScreenPlain.handleLogin fs w
   = (LoginScreenPlain.mkFormState email password false,
      snd (Auth.login (trim email) password w), [])).
Proof.
  cbv zeta. unfold LoginScreenPlain.handleLogin. split.
  - intros Hb%falsy_or. rewrite Hb. reflexivity.
  - intros He Hp. rewrite (falsy_nor _ _ He Hp).
    destruct (login_answers (trim (LoginScreenPlain.form_email fs))
                (LoginScreenPlain.form_password fs) w He)
      as (res & w' & -> & _).
    { intros E. rewrite E in Hp. apply Hp. reflexivity. }
    reflexivity.
Qed.

(** The two logout buttons. Both call [logout]; the one of the Settings
    screen never throws and shows "Logout Failed" with the provider's error
    exactly when the removal of the session slot is rejected; the one of
    the Home screen shows nothing in either case. Either way the user in
    memory is [null] afterwards. *)
Theorem logout_buttons (w : Auth.World) :
  LogoutButtons.Home_onPress w = (snd (Auth.logout w), []) /\
  LogoutButtons.Settings_onPress w
  = (Auth.Ok tt,
     (snd (Auth.logout w),
      if hd false (Auth.plan w)
      then [("Logout Failed", "An unexpected error occurred during logout")]
      else [])) /\
  Auth.user (snd (Auth.logout w)) = None.
Proof.
  unfold LogoutButtons.Home_onPress, LogoutButtons.Settings_onPress.
  rewrite logout_run. destruct (hd false (Auth.plan w)); repeat split.
Qed.

End LoginScreenFacts.

(** ** The navigation *)
Section NavigationFacts.
Import JS Regex Navigation.
Context `{Auth.JSON}.
Local Open Scope list_scope.

(** The Profile link. [parse] undoes [stringify] on every value; and on
    every path segment that the pattern [@[a-zA-Z0-9-_]+] accepts,
    [stringify] undoes [parse], and the parsed user is not empty and made of
    letters, digits, hyphens and underscores. *)
Theorem profile_link_round_trip :
  (forall value, parse_user (stringify_user value) = value) /\
  (forall segment,
     test userPattern segment = true ->
     stringify_user (parse_user segment) = segment /\
     parse_user segment <> "" /\
     Forall (fun c => handleChar c = true)
       (list_ascii_of_string (parse_user segment))).
Proof.
  split; [reflexivity |].
  intros segment Ht. unfold test in Ht. apply matches_lang in Ht.
  unfold userPattern in Ht.
  apply lang_seq_inv in Ht as (l1 & l2 & E & H1 & H2).
  apply lang_lit in H1 as ->. apply lang_plus_class in H2 as [Hne Hall].
  destruct segment as [| c rest]; [discriminate |].
  cbn in E. injection E as Ec El. subst c l2.
  cbn. split; [reflexivity |]. split; [| exact Hall].
  destruct rest; [cbn in Hne; congruence | discriminate].
Qed.

(** The navigation offers the Login and Signup screens exactly when no
    user is in memory and the HomeTabs exactly when one is. So after every
    [logout], also one that answered a failure, the Login and Signup
    screens are offered; and after a [login] that answered success the
    HomeTabs are. *)
Theorem navigation_follows_session (w : Auth.World) :
  (forall u, showsAuthScreens u = negb (showsHomeTabs u)) /\
  showsAuthScreens (Auth.user (snd (Auth.logout w))) = true /\
  (forall email password,
     fst (Auth.login email password w) = Auth.Ok (Auth.mkAuthResult true None) ->
     showsHomeTabs (Auth.user (snd (Auth.login email password w))) = true).
Proof.
  split; [intros [u |]; reflexivity |]. split.
  - rewrite logout_run. destruct (hd false (Auth.plan w)); reflexivity.
  - intros email password Hok.
    destruct (falsy email || falsy password) eqn:Hf;
      [rewrite login_missing in Hok by assumption; discriminate |].
    destruct (find (AuthSpec.credentialsMatch email password)
                (AuthSpec.visibleAccounts w)) as [a |] eqn:Hfind;
      [| destruct (login_unknown _ _ _ Hf Hfind) as [tr E];
         rewrite E in Hok; discriminate].
    destruct (login_known _ _ _ _ Hf Hfind) as [tr E]. rewrite E in *.
    destruct (hd false (tl (Auth.plan w))); [discriminate | reflexivity].
Qed.

End NavigationFacts.

(** ** The statements at concrete inputs, with the codec as [JSON] *)
Section Runs.
Import JS Auth AuthSpec Sample.
Local Open Scope list_scope.

(** C1. The specification asks that a rejected write of the account
    collection make [signup] answer [success: false]. On the code it does
    not: here the inputs pass the checks, no account has the email, and the
    write of the collection (the second AsyncStorage call) is rejected;
    [saveStoredUsers] logs the fault on the console and swallows it, nothing
    is stored under [@auth_users], and [signup] answers [success: true].
    The account that was announced as registered does not exist: after a
    [logout], a [login] with the same email and password answers "Invalid
    email or password". *)
Lemma signup_save_fault_swallowed :
  let w := fresh [false; true] in
  let r := signup 1700000000000%Z "John Doe" "john@example.com" "password123" w in
  let out := logout (snd r) in
  passesInputChecks "John Doe" "john@example.com" "password123" = true /\
  find (emailTaken "john@example.com") (visibleAccounts w) = None /\
  hd false (tl (plan w)) = true /\
  In (ConsoleError "Error saving users:") (trace (snd r)) /\
  storage (snd r) !! USERS_STORAGE_KEY = None /\
  fst r = Ok (mkAuthResult true None) /\
  user (snd r) = Some john /\
  fst out = Ok (mkAuthResult true None) /\
  fst (login "john@example.com" "password123" (snd out))
  = Ok (failure "Invalid email or password").
Proof.
  cbv zeta. repeat split; try (vm_compute; reflexivity).
  vm_compute. right; right; left. reflexivity.
Qed.

Lemma signup_save_fault_witness :
  let w := fresh [false; true; false] in
  passesInputChecks "John Doe" "john@example.com" "password123" = true /\
  find (emailTaken "john@example.com") (visibleAccounts w) = None /\
  hd false (tl (plan w)) = true /\
  exists (r : AuthResult) (w' : World),
    signup 1700000000000%Z "John Doe" "john@example.com" "password123" w
      = (Ok r, w') /\
    storage w' !! USERS_STORAGE_KEY = storage w !! USERS_STORAGE_KEY /\
    user w' = Some john /\
    (hd false (tl (tl (plan w))) = false ->
       r = mkAuthResult true None /\
       storage w' = <[AUTH_STORAGE_KEY := stringify_User john]> (storage w)) /\
    (hd false (tl (tl (plan w))) = true ->
       r = failure "An unexpected error occurred during signup" /\
       storage w' = storage w).
Proof.
  cbv zeta. split; [reflexivity |]. split; [reflexivity |].
  split; [reflexivity |].
  apply (signup_save_fault 1700000000000%Z "John Doe" "john@example.com"
           "password123" (fresh [false; true; false]));
    reflexivity.
Defined.

Lemma logout_twice_witness :
  calm 2 (plan (johnIn [])) = true /\
  exists w1 w2,
    logout (johnIn []) = (Ok (mkAuthResult true None), w1) /\
    logout w1 = (Ok (mkAuthResult true None), w2) /\
    user w2 = None /\
    storage w2 !! AUTH_STORAGE_KEY = None.
Proof.
  split; [reflexivity |]. apply (logout_twice (johnIn [])). reflexivity.
Defined.

Lemma signup_logout_login_witness :
  storage (fresh []) !! USERS_STORAGE_KEY = None /\
  calm 6 (plan (fresh [])) = true /\
  exists w1 w2 w3 : World,
    signup 1700000000000%Z "John Doe" "john@example.com" "password123" (fresh [])
      = (Ok (mkAuthResult true None), w1) /\
    user w1 = Some john /\
    storage w1 !! AUTH_STORAGE_KEY = Some (stringify_User john) /\
    logout w1 = (Ok (mkAuthResult true None), w2) /\
    user w2 = None /\
    login "john@example.com" "password123" w2
      = (Ok (mkAuthResult true None), w3) /\
    user w3 = Some john /\
    storage w3 !! AUTH_STORAGE_KEY = Some (stringify_User john).
Proof.
  split; [reflexivity |]. split; [reflexivity |].
  apply (signup_logout_login 1700000000000%Z (fresh [])); reflexivity.
Defined.

Lemma storedAccounts_johnOut (p : list bool) :
  storedAccounts (storage (johnOut p)) = [johnAccount].
Proof. vm_compute. reflexivity. Qed.

Lemma login_spec_witness :
  (exists msg, login "" "password123" (johnOut []) = (Ok (failure msg), johnOut []))
  /\
  (fst (login "x@y.com" "wrong" (johnOut []))
     = Ok (failure "Invalid email or password") /\
   user (snd (login "x@y.com" "wrong" (johnOut []))) = None /\
   storage (snd (login "x@y.com" "wrong" (johnOut []))) = storage (johnOut []))
  /\
  (exists a,
     In a (storedAccounts (storage (johnOut []))) /\
     sameEmail "John@Example.COM" a /\
     StoredUser_password a = "password123" /\
     fst (login "John@Example.COM" "password123" (johnOut []))
       = Ok (mkAuthResult true None) /\
     user (snd (login "John@Example.COM" "password123" (johnOut [])))
       = Some (sessionUser a) /\
     storage (snd (login "John@Example.COM" "password123" (johnOut [])))
       !! AUTH_STORAGE_KEY = Some (stringify_User (sessionUser a))).
Proof.
  split; [| split].
  - apply (proj1 (login_spec "" "password123" (johnOut []))).
    left. reflexivity.
  - apply (proj1 (proj2 (login_spec "x@y.com" "wrong" (johnOut []))));
      try discriminate.
    intros a Hin [Hm _]. rewrite storedAccounts_johnOut in Hin.
    destruct Hin as [<- | []]. discriminate Hm.
  - apply (proj2 (proj2 (login_spec "John@Example.COM" "password123"
                           (johnOut []))));
      try discriminate; try reflexivity.
    exists johnAccount. rewrite storedAccounts_johnOut.
    repeat split. left. reflexivity.
Defined.

Lemma signup_unique_emails_witness :
  uniqueEmails
    (storedAccounts
       (storage
          (signups
             [mkSignupCall 1%Z "Ann" "a@b.com" "secret1";
              mkSignupCall 2%Z "Bob" "A@B.com" "secret2";
              mkSignupCall 3%Z "Cid" "c@d.org" "secret3"]
             (fresh [false; true; false; true])))) /\
  (let w1 := snd (signup 1%Z "Ann" "a@b.com" "secret1" (fresh [])) in
   (exists r, fst (signup 2%Z "Bob" "A@B.com" "secret2" w1) = Ok r
              /\ success r = false) /\
   storage (snd (signup 2%Z "Bob" "A@B.com" "secret2" w1)) = storage w1 /\
   fst (signup 2%Z "Bob" "A@B.com" "secret2" w1)
   = Ok (failure "User with this email already exists")).
Proof.
  split.
  - apply (proj1 signup_unique_emails). reflexivity.
  - pose proof (proj2 signup_unique_emails 1%Z 2%Z "Ann" "secret1" "Bob" "secret2"
                  (fresh []) eq_refl eq_refl) as (H1 & H2 & H3).
    cbv zeta. split; [exact H1 |]. split; [exact H2 |].
    apply H3; [discriminate | simpl; lia].
Defined.

Lemma startup_restores_session_witness :
  user (snd (mount (initial {[AUTH_STORAGE_KEY := stringify_User john]} [])))
    = Some john /\
  user (snd (mount (initial ∅ []))) = None /\
  user (snd (mount (initial {[AUTH_STORAGE_KEY := stringify_User john]} [true])))
    = None /\
  user (snd (mount (initial {[AUTH_STORAGE_KEY := "{oops"]} []))) = None.
Proof.
  split; [| split; [| split]].
  - apply (startup_restores_session
             {[AUTH_STORAGE_KEY := stringify_User john]} []);
      reflexivity.
  - apply (startup_restores_session ∅ []). left. reflexivity.
  - apply (startup_restores_session
             {[AUTH_STORAGE_KEY := stringify_User john]} [true]).
    right; left. reflexivity.
  - apply (startup_restores_session {[AUTH_STORAGE_KEY := "{oops"]} []).
    right; right. exists "{oops". split; reflexivity.
Defined.

End Runs.

(** ** The further properties at concrete inputs *)
Section MoreRuns.
Import JS Auth AuthSpec AuthRuns Sample.
Local Open Scope list_scope.

Lemma signup_success_witness :
  passesInputChecks "John Doe" "john@example.com" "password123" = true /\
  (forall a, In a (storedAccounts (storage (fresh []))) ->
             ~ sameEmail "john@example.com" a) /\
  calm 3 (plan (fresh [])) = true /\
  exists w',
    signup 1700000000000%Z "John Doe" "john@example.com" "password123" (fresh [])
      = (Ok (mkAuthResult true None), w') /\
    storedAccounts (storage w')
      = storedAccounts (storage (fresh [])) ++ [johnAccount] /\
    user w' = Some john /\
    storage w' !! AUTH_STORAGE_KEY = Some (stringify_User john) /\
    (forall key, key <> AUTH_STORAGE_KEY -> key <> USERS_STORAGE_KEY ->
                 storage w' !! key = storage (fresh []) !! key).
Proof.
  split; [reflexivity |]. split; [intros a [] |]. split; [reflexivity |].
  apply (signup_success 1700000000000%Z "John Doe" "john@example.com"
           "password123" (fresh []));
    [reflexivity | intros a [] | reflexivity].
Defined.

Lemma signup_rejects_taken_email_witness :
  passesInputChecks "Johnny" "JOHN@Example.com" "secret12" = true /\
  hd false (plan (johnOut [])) = false /\
  (exists a, In a (storedAccounts (storage (johnOut [])))
             /\ sameEmail "JOHN@Example.com" a) /\
  fst (signup 5%Z "Johnny" "JOHN@Example.com" "secret12" (johnOut []))
    = Ok (failure "User with this email already exists") /\
  storage (snd (signup 5%Z "Johnny" "JOHN@Example.com" "secret12" (johnOut [])))
    = storage (johnOut []) /\
  user (snd (signup 5%Z "Johnny" "JOHN@Example.com" "secret12" (johnOut [])))
    = user (johnOut []).
Proof.
  assert (exists a, In a (storedAccounts (storage (johnOut [])))
                    /\ sameEmail "JOHN@Example.com" a) as Hex.
  { exists johnAccount. rewrite storedAccounts_johnOut.
    split; [left; reflexivity | reflexivity]. }
  split; [reflexivity |]. split; [reflexivity |]. split; [exact Hex |].
  apply (signup_rejects_taken_email 5%Z "Johnny" "JOHN@Example.com" "secret12"
           (johnOut []));
    [reflexivity | reflexivity | exact Hex].
Defined.

Lemma signup_read_fault_overwrites_witness :
  passesInputChecks "Ann" "ann@x.org" "secret1" = true /\
  hd false (plan (johnOut [true; false])) = true /\
  hd false (tl (plan (johnOut [true; false]))) = false /\
  storedAccounts (storage (johnOut [true; false])) = [johnAccount] /\
  storedAccounts
    (storage (snd (signup 7%Z "Ann" "ann@x.org" "secret1" (johnOut [true; false]))))
  = [mkStoredUser "Ann" "ann@x.org" "secret1" (toString 7)] /\
  user (snd (signup 7%Z "Ann" "ann@x.org" "secret1" (johnOut [true; false])))
  = Some (mkUser "Ann" "ann@x.org" (toString 7)).
Proof.
  split; [reflexivity |]. split; [reflexivity |]. split; [reflexivity |].
  split; [apply storedAccounts_johnOut |].
  apply (signup_read_fault_overwrites 7%Z "Ann" "ann@x.org" "secret1"
           (johnOut [true; false]));
    reflexivity.
Defined.

Lemma login_under_faults_witness :
  (fst (login "john@example.com" "password123" (johnOut [true]))
     = Ok (failure "Invalid email or password") /\
   storage (snd (login "john@example.com" "password123" (johnOut [true])))
     = storage (johnOut [true]) /\
   user (snd (login "john@example.com" "password123" (johnOut [true])))
     = user (johnOut [true])) /\
  (exists a,
     In a (storedAccounts (storage (johnOut [false; true]))) /\
     sameEmail "john@example.com" a /\
     StoredUser_password a = "password123" /\
     fst (login "john@example.com" "password123" (johnOut [false; true]))
       = Ok (failure "An unexpected error occurred during login") /\
     storage (snd (login "john@example.com" "password123" (johnOut [false; true])))
       = storage (johnOut [false; true]) /\
     user (snd (login "john@example.com" "password123" (johnOut [false; true])))
       = Some (sessionUser a)).
Proof.
  split.
  - apply (proj1 (login_under_faults "john@example.com" "password123"
                    (johnOut [true]) ltac:(discriminate) ltac:(discriminate))).
    reflexivity.
  - apply (proj2 (login_under_faults "john@example.com" "password123"
                    (johnOut [false; true])
                    ltac:(discriminate) ltac:(discriminate)));
      try reflexivity.
    exists johnAccount. rewrite storedAccounts_johnOut.
    repeat split. left. reflexivity.
Defined.

Lemma restart_restores_session_witness :
  hd false (@nil bool) = false /\
  fst (login "john@example.com" "password123" (johnOut []))
    = Ok (mkAuthResult true None) /\
  user (restart (snd (login "john@example.com" "password123" (johnOut []))) [])
    = Some john /\
  fst (logout (johnIn [])) = Ok (mkAuthResult true None) /\
  user (restart (snd (logout (johnIn []))) []) = None.
Proof.
  split; [reflexivity |]. split; [reflexivity |].
  pose proof (restart_restores_session [] eq_refl) as (Hlogin & _ & Hlogout).
  split; [| split; [reflexivity |]].
  - destruct (Hlogin "john@example.com" "password123" (johnOut []) eq_refl)
      as [_ ->].
    reflexivity.
  - apply (Hlogout (johnIn []) eq_refl).
Defined.

Lemma operations_keep_unique_witness :
  uniqueEmails (storedAccounts (storage (johnOut [false; true; true]))) /\
  uniqueEmails
    (storedAccounts
       (storage
          (performAll
             [Signup 8%Z "Ann" "ann@x.org" "secret1";
              Login "john@example.com" "password123";
              Signup 9%Z "Johnny" "JOHN@example.com" "secret2";
              Logout; Reload]
             (johnOut [false; true; true])))).
Proof.
  assert (uniqueEmails (storedAccounts (storage (johnOut [false; true; true]))))
    as Hu.
  { rewrite storedAccounts_johnOut. unfold uniqueEmails. cbn [map].
    apply NoDup_singleton. }
  split; [exact Hu |].
  apply (operations_keep_unique _ (johnOut [false; true; true]) Hu).
Defined.

Lemma accounts_only_grow_witness :
  faultless (plan (johnOut [])) = true /\
  exists more,
    storedAccounts
      (storage
         (performAll
            [Login "john@example.com" "wrong-password";
             Signup 8%Z "Ann" "ann@x.org" "secret1";
             Logout;
             Signup 9%Z "Johnny" "JOHN@example.com" "secret2"]
            (johnOut [])))
    = storedAccounts (storage (johnOut [])) ++ more.
Proof.
  split; [reflexivity |].
  apply (accounts_only_grow _ (johnOut [])). reflexivity.
Defined.

Lemma login_after_signup_witness :
  calm 5 (plan (fresh [])) = true /\
  fst (signup 1700000000000%Z "John Doe" "john@example.com" "password123"
         (fresh []))
    = Ok (mkAuthResult true None) /\
  toLowerCase "JOHN@Example.COM" = toLowerCase "john@example.com" /\
  let w1 :=
    snd (signup 1700000000000%Z "John Doe" "john@example.com" "password123"
           (fresh [])) in
  fst (login "JOHN@Example.COM" "password123" w1) = Ok (mkAuthResult true None) /\
  user (snd (login "JOHN@Example.COM" "password123" w1)) = Some john /\
  (forall wrong,
     wrong <> "" -> wrong <> "password123" ->
     fst (login "JOHN@Example.COM" wrong w1)
     = Ok (failure "Invalid email or password")).
Proof.
  split; [reflexivity |]. split; [reflexivity |]. split; [reflexivity |].
  apply (login_after_signup 1700000000000%Z "John Doe" "john@example.com"
           "password123" "JOHN@Example.COM" (fresh []));
    reflexivity.
Defined.

Lemma accepted_email_shape_witness :
  Regex.test Validator.emailRegex "a@b.co" = true /\
  Forall (fun c => isWhiteSpace c = false) (list_ascii_of_string "a@b.co") /\
  length (List.filter (Ascii.eqb "@") (list_ascii_of_string "a@b.co")) = 1 /\
  trim "a@b.co" = "a@b.co" /\
  5 <= String.length "a@b.co".
Proof.
  split; [reflexivity |]. apply (accepted_email_shape "a@b.co"). reflexivity.
Defined.

Lemma valid_form_passes_signup_checks_witness :
  let s :=
    SignupScreen.mkScreen
      (SignupScreen.mkFormState "  Jo " "jo@x.org" "secret1" "secret1" false false)
      SignupScreen.noErrors (SignupScreen.mkTouched false false false false) in
  fst (SignupScreen.validateAllFields s) = true /\
  passesInputChecks "Jo" "jo@x.org" "secret1" = true.
Proof.
  cbv zeta. split; [reflexivity |].
  apply (valid_form_passes_signup_checks
           (SignupScreen.mkScreen
              (SignupScreen.mkFormState "  Jo " "jo@x.org" "secret1" "secret1"
                 false false)
              SignupScreen.noErrors
              (SignupScreen.mkTouched false false false false))).
  reflexivity.
Defined.

Lemma signup_ids_witness :
  calm 5 (plan (fresh [])) = true /\
  fst (signup 42%Z "Ann" "ann@x.org" "secret1" (fresh []))
    = Ok (mkAuthResult true None) /\
  let w1 := snd (signup 42%Z "Ann" "ann@x.org" "secret1" (fresh [])) in
  fst (signup 42%Z "Bob" "bob@x.org" "secret2" w1) = Ok (mkAuthResult true None) /\
  exists a1 a2,
    storedAccounts (storage (snd (signup 42%Z "Bob" "bob@x.org" "secret2" w1)))
    = storedAccounts (storage (fresh [])) ++ [a1; a2] /\
    StoredUser_email a1 = "ann@x.org" /\ StoredUser_email a2 = "bob@x.org" /\
    StoredUser_id a1 = toString 42 /\ StoredUser_id a2 = toString 42 /\
    (StoredUser_id a1 = StoredUser_id a2 <-> 42%Z = 42%Z).
Proof.
  split; [reflexivity |]. split; [reflexivity |].
  cbv zeta. split; [reflexivity |].
  apply (signup_ids 42%Z 42%Z "Ann" "ann@x.org" "secret1" "Bob" "bob@x.org"
           "secret2" (fresh []));
    reflexivity.
Defined.

End MoreRuns.
